(** * Advance_Calculator: the safe expression evaluator

    A shallow embedding of [SafeEvaluator] and [CalcApp._evaluate_silent]
    of Advance_Calculator.py, and the properties of its preprocessor, of
    its tree walk and of the entry point the buttons call.

    Conventions of the embedding.
    - A Python [str] is a [string]: its UTF-8 bytes.  The program text is
      ASCII apart from the two glyphs U+00D7 and U+00F7, which are two
      bytes each; [str.isdigit] and [str.strip] are taken on ASCII.
    - A Python [list] of [str] is a [list string]; [int] is [Z]; [float] is
      a binary64 [float]; exceptions are values of [exn] carried by
      [result].
    - The host is CPython 3.10 to 3.13 with a 64-bit [long].  What the
      program takes from it and is not computed here (the transcendental
      functions of the C library, arithmetic on [complex], the parser
      outside the fragment of the grammar written out below) is a field of
      the class [Host], so that every statement holds whatever the host
      does there.  Resource limits of the host (recursion depth, memory)
      are left out. *)

From Stdlib Require Import ZArith Lia Bool List String Ascii.
From Stdlib Require Import Floats.PrimFloat Floats.FloatOps Floats.SpecFloat.
From stdpp Require Import gmap strings.
Import ListNotations.

Local Open Scope string_scope.
Local Open Scope list_scope.
Local Open Scope Z_scope.

(** ** Python strings and lists *)

Definition chr (c : ascii) : string := String c EmptyString.

Definition bang : ascii := "!"%char.
Definition lparen : ascii := "("%char.
Definition rparen : ascii := ")"%char.
Definition dot : ascii := "."%char.

(** [c.isdigit()] for one character. *)
Definition isdigit (c : ascii) : bool :=
  let n := N_of_ascii c in (48 <=? n)%N && (n <=? 57)%N.

(** [c.isspace()] for one character, as [str.strip()] uses it. *)
Definition isspace (c : ascii) : bool :=
  let n := N_of_ascii c in
  ((9 <=? n)%N && (n <=? 13)%N) || ((28 <=? n)%N && (n <=? 32)%N).

(** [s.startswith(p)]. *)
Fixpoint startswith (p s : string) : bool :=
  match p, s with
  | EmptyString, _ => true
  | String a p', String b s' => Ascii.eqb a b && startswith p' s'
  | String _ _, EmptyString => false
  end.

(** [s.replace(old, new)] for a pattern [old] that is not empty: the
    occurrences are taken from the left and do not overlap.  [skip] counts
    the characters of an occurrence that are still to be dropped. *)
Fixpoint replace_from (old new : string) (skip : nat) (s : string) : string :=
  match s with
  | EmptyString => EmptyString
  | String c s' =>
      match skip with
      | S k => replace_from old new k s'
      | O =>
          if startswith old s
          then new +:+ replace_from old new (String.length old - 1) s'
          else String c (replace_from old new O s')
      end
  end.

Definition replace (old new s : string) : string := replace_from old new O s.

(** [s.strip()]. *)
Fixpoint lstrip (s : string) : string :=
  match s with
  | String c s' => if isspace c then lstrip s' else s
  | EmptyString => EmptyString
  end.

Fixpoint rstrip (s : string) : string :=
  match s with
  | EmptyString => EmptyString
  | String c s' =>
      match rstrip s' with
      | EmptyString => if isspace c then EmptyString else chr c
      | r => String c r
      end
  end.

Definition strip (s : string) : string := rstrip (lstrip s).

(** [str.join] on the empty separator. *)
Definition join (out : list string) : string := String.concat EmptyString out.

(** [l.insert(i, x)]: a negative index counts from the end, and an index
    out of range is clipped to the nearest end. *)
Definition list_insert {A} (i : Z) (x : A) (l : list A) : list A :=
  let n := Z.of_nat (List.length l) in
  let i' := if i <? 0 then Z.max 0 (i + n) else Z.min i n in
  take (Z.to_nat i') l ++ x :: drop (Z.to_nat i') l.

(** [l.pop()] on a list that is not empty, [n] times. *)
Definition pops {A} (n : nat) (l : list A) : list A :=
  @Nat.iter n (list A) (@removelast A) l.

(** ** The preprocessor: [SafeEvaluator.eval], lines 158 to 214 *)

(** The scan of [_replace_factorial] for the parenthesis that matches:
    [while j >= 0] over the chunks already emitted, from [j = n - 1] down.
    The result is the last value of [j], which is [-1] when no chunk
    closes the count. *)
Fixpoint scan_back (out : list string) (n : nat) (depth : Z) : Z :=
  match n with
  | O => -1
  | S j =>
      let c := nth j out EmptyString in
      if String.eqb c ")" then scan_back out j (depth + 1)
      else if String.eqb c "(" then
        if depth - 1 =? 0 then Z.of_nat j else scan_back out j (depth - 1)
      else scan_back out j depth
  end.

(** The inner [while] of the number case: the characters it appends and
    what is left of the input. *)
Definition digit_or_dot (c : ascii) : bool := isdigit c || Ascii.eqb c dot.

Fixpoint digit_run (s : list ascii) : list ascii * list ascii :=
  match s with
  | c :: s' =>
      if digit_or_dot c
      then let '(run, rest) := digit_run s' in (c :: run, rest)
      else ([], s)
  | [] => ([], [])
  end.

(** One turn of the outer [while]: the input stands at [c :: rest]. *)
Definition rf_step (out : list string) (c : ascii) (rest : list ascii)
  : list string * list ascii :=
  if Ascii.eqb c bang then (out ++ ["!"], rest)
  else
    let wrapped :=
      if Ascii.eqb c rparen then
        let j := scan_back out (List.length out) 1 in
        match rest with
        | k :: rest' =>
            if Ascii.eqb k bang
            then Some (list_insert j "fact(" out ++ [")"], rest')
            else None
        | [] => None
        end
      else None in
    match wrapped with
    | Some r => r
    | None =>
        if isdigit c then
          let '(run, rest') := digit_run (c :: rest) in
          let out1 := out ++ map chr run in
          match rest' with
          | k :: rest'' =>
              if Ascii.eqb k bang
              then (pops (List.length run) out1
                      ++ ["fact(" +:+ string_of_list_ascii run +:+ ")"], rest'')
              else (out1, rest')
          | [] => (out1, rest')
          end
        else (out ++ [chr c], rest)
    end.

(** The outer [while i < len(s)]; every turn moves [i] forward, so the
    length of the input is fuel enough. *)
Fixpoint rf_loop (fuel : nat) (out : list string) (s : list ascii) : list string :=
  match s, fuel with
  | c :: rest, S fuel' =>
      let '(out', s') := rf_step out c rest in rf_loop fuel' out' s'
  | _, _ => out
  end.

Definition _replace_factorial (s : string) : string :=
  join (rf_loop (String.length s) [] (list_ascii_of_string s)).

(** Lines 158 and 161: the glyphs and the percent sign. *)
Definition substitute (expr : string) : string :=
  replace "%" "/100" (replace "^" "**" (replace "÷" "/" (replace "×" "*" expr))).

Definition preprocess (expr : string) : string :=
  _replace_factorial (substitute expr).

(** ** The syntax trees of the [ast] module *)

Module ast.

#[local] Set Warnings "-register-all".

Inductive operator :=
  Add | Sub | Mult | MatMult | Div | Mod | Pow
| LShift | RShift | BitOr | BitXor | BitAnd | FloorDiv.

Inductive unaryop := Invert | Not | UAdd | USub.

Inductive cmpop := Eq | NotEq | Lt | LtE | Gt | GtE | Is | IsNot | In | NotIn.

Inductive boolop := And | Or.

(** The [value] of an [ast.Constant]. *)
Inductive constant :=
| CInt (n : Z)
| CFloat (x : float)
| CComplex (re im : float)
| CBool (b : bool)
| CStr (s : string)
| CBytes (s : string)
| CNone
| CEllipsis.

(** The expression nodes; [Expression] is the root that
    [ast.parse(expr, mode="eval")] returns.  A keyword of a call is its
    name, absent for [**kw], and its value. *)
Inductive node :=
| Expression (body : node)
| Constant (value : constant)
| BinOp (left : node) (op : operator) (right : node)
| UnaryOp (op : unaryop) (operand : node)
| Call (func : node) (args : list node) (keywords : list (option string * node))
| Name (id : string)
| Compare (left : node) (ops : list cmpop) (comparators : list node)
| BoolOp (op : boolop) (values : list node)
| IfExp (test body orelse : node)
| Lambda (body : node)
| Tuple (elts : list node)
| List (elts : list node)
| Attribute (value : node) (attr : string)
| Subscript (value slice : node)
| Starred (value : node).

(** What [ast.parse] does with a source text. *)
Inductive parsed :=
| Tree (root : node)
| SyntaxError
| Raises (kind : string).

End ast.

(** ** Values, exceptions and results *)

Inductive value :=
| VInt (n : Z)
| VBool (b : bool)
| VFloat (x : float)
| VComplex (re im : float).

(** The exceptions that the program raises or lets through; [HostError]
    is any other exception of the host, by the name of its class. *)
Inductive exn :=
| ValueError (msg : string)
| TypeError
| ZeroDivisionError
| OverflowError
| AttributeError (msg : string)
| HostError (kind : string).

Inductive result (A : Type) :=
| Ok (a : A)
| Raise (e : exn).

Arguments Ok {A} a.
Arguments Raise {A} e.

Definition bind {A B} (m : result A) (k : A -> result B) : result B :=
  match m with
  | Ok a => k a
  | Raise e => Raise e
  end.

Notation "'let*' x ':=' m 'in' k" := (bind m (fun x => k))
  (at level 10, x name, m at level 100, k at level 200).

(** ** The host *)

Class Host := {
  (** [math.sin] and the like on a [float] argument. *)
  math_sin : float -> result float;
  math_cos : float -> result float;
  math_tan : float -> result float;
  math_asin : float -> result float;
  math_acos : float -> result float;
  math_atan : float -> result float;
  (** [math.log(x)] and [math.log(x, b)]. *)
  math_log : value -> option value -> result value;
  (** [x ** y], [x // y] and [x % y] on floats, the last two for [y]
      other than zero. *)
  float_pow : float -> float -> result value;
  float_floordiv : float -> float -> float;
  float_mod : float -> float -> float;
  (** [a / b] on integers that are not both exact as floats. *)
  int_truediv : Z -> Z -> result float;
  (** Arithmetic with a [complex] operand. *)
  complex_binop : ast.operator -> value -> value -> result value;
  complex_abs : float -> float -> result float;
  (** [pow(base, exp, mod)]. *)
  pow3 : value -> value -> value -> result value;
  (** [ast.parse(text, mode="eval")] on a text outside the fragment of
      the grammar that [parse_fragment] covers. *)
  host_parse : string -> ast.parsed
}.

(** ** Numbers *)

Definition math_pi : float := 0x1.921fb54442d18p+1%float.
Definition math_e : float := 0x1.5bf0a8b145769p+1%float.

(** The nearest float of an integer, ties to even. *)
Definition z2f (n : Z) : float := SF2Prim (binary_normalize prec emax n 0 false).

(** [float(n)] for an [int]. *)
Definition int_to_float (n : Z) : result float :=
  let x := z2f n in
  if is_infinity x then Raise OverflowError else Ok x.

Definition bool_to_Z (b : bool) : Z := if b then 1 else 0.

(** The C double of the argument of a [math] function. *)
Definition as_double (v : value) : result float :=
  match v with
  | VFloat x => Ok x
  | VInt n => int_to_float n
  | VBool b => int_to_float (bool_to_Z b)
  | VComplex _ _ => Raise TypeError
  end.

Definition is_complex (v : value) : bool :=
  match v with VComplex _ _ => true | _ => false end.

Definition is_float (v : value) : bool :=
  match v with VFloat _ => true | _ => false end.

(** The integer of an [int] or a [bool]. *)
Definition int_of (v : value) : Z :=
  match v with
  | VInt n => n
  | VBool b => bool_to_Z b
  | _ => 0
  end.

Definition exact_float (n : Z) : bool := Z.abs n <=? 2 ^ 53.

(** The floor of a finite float, from its mantissa and exponent. *)
Definition float_floor (x : float) : option Z :=
  match Prim2SF x with
  | S754_zero _ => Some 0
  | S754_finite s m e =>
      let sm := if s then Z.neg m else Z.pos m in
      Some (if 0 <=? e then sm * 2 ^ e else sm / 2 ^ (- e))
  | _ => None
  end.

Fixpoint fact_nat (n : nat) : Z :=
  match n with
  | O => 1
  | S k => Z.of_nat n * fact_nat k
  end.

Section Evaluator.

Context {host : Host}.

(** *** Operators: [operator.add] and the like *)

Definition int_binop (op : ast.operator) (a b : Z) : result value :=
  match op with
  | ast.Add => Ok (VInt (a + b))
  | ast.Sub => Ok (VInt (a - b))
  | ast.Mult => Ok (VInt (a * b))
  | ast.Div =>
      if b =? 0 then Raise ZeroDivisionError
      else if exact_float a && exact_float b
      then Ok (VFloat (z2f a / z2f b))
      else let* q := int_truediv a b in Ok (VFloat q)
  | ast.FloorDiv =>
      if b =? 0 then Raise ZeroDivisionError else Ok (VInt (a / b))
  | ast.Mod =>
      if b =? 0 then Raise ZeroDivisionError else Ok (VInt (a mod b))
  | ast.Pow =>
      if 0 <=? b then Ok (VInt (a ^ b))
      else
        let* x := int_to_float a in
        let* y := int_to_float b in
        float_pow x y
  | _ => Raise TypeError
  end.

Definition float_binop (op : ast.operator) (x y : float) : result value :=
  match op with
  | ast.Add => Ok (VFloat (x + y))
  | ast.Sub => Ok (VFloat (x - y))
  | ast.Mult => Ok (VFloat (x * y))
  | ast.Div =>
      if is_zero y then Raise ZeroDivisionError else Ok (VFloat (x / y))
  | ast.FloorDiv =>
      if is_zero y then Raise ZeroDivisionError
      else Ok (VFloat (float_floordiv x y))
  | ast.Mod =>
      if is_zero y then Raise ZeroDivisionError
      else Ok (VFloat (float_mod x y))
  | ast.Pow => float_pow x y
  | _ => Raise TypeError
  end.

(** The numeric tower: [complex] over [float] over [int], [bool] being
    an [int]. *)
Definition arith (op : ast.operator) (a b : value) : result value :=
  if is_complex a || is_complex b then complex_binop op a b
  else if is_float a || is_float b then
    let* x := as_double a in
    let* y := as_double b in
    float_binop op x y
  else int_binop op (int_of a) (int_of b).

(** [self.bin_ops], lines 71 to 79. *)
Definition bin_ops (op : ast.operator) : option (value -> value -> result value) :=
  match op with
  | ast.Add | ast.Sub | ast.Mult | ast.Div
  | ast.FloorDiv | ast.Mod | ast.Pow => Some (arith op)
  | _ => None
  end.

Definition pos (v : value) : result value :=
  match v with
  | VBool b => Ok (VInt (bool_to_Z b))
  | _ => Ok v
  end.

Definition neg (v : value) : result value :=
  match v with
  | VInt n => Ok (VInt (- n))
  | VBool b => Ok (VInt (- bool_to_Z b))
  | VFloat x => Ok (VFloat (- x))
  | VComplex re im => Ok (VComplex (- re) (- im))
  end.

(** [self.unary_ops], lines 80 to 83. *)
Definition unary_ops (op : ast.unaryop) : option (value -> result value) :=
  match op with
  | ast.UAdd => Some pos
  | ast.USub => Some neg
  | _ => None
  end.

(** *** Functions: [self.funcs], lines 86 to 106 *)

(** A callable of the table: a function of the C library of the host,
    which takes its arguments by position only; a [lambda] of the
    program, whose parameters also go by name and the last of which may
    have a default; the built in [pow(base, exp, mod=None)]. *)
Inductive pyfunc :=
| CFunction (f : list value -> result value)
| Lambda1 (x : string) (body : value -> result value)
| Lambda2 (x b : string) (b_default : value)
          (body : value -> value -> result value)
| BuiltinPow.

(** The dictionary [**kwargs] of a call: a later value of a name takes
    the place of an earlier one. *)
Fixpoint dict_set (k : string) (v : value) (d : list (string * value))
  : list (string * value) :=
  match d with
  | [] => [(k, v)]
  | (k', v') :: d' =>
      if String.eqb k k' then (k, v) :: d' else (k', v') :: dict_set k v d'
  end.

Fixpoint dict_of (kws : list (option string * value)) (d : list (string * value))
  : option (list (string * value)) :=
  match kws with
  | [] => Some d
  | (Some k, v) :: kws' => dict_of kws' (dict_set k v d)
  | (None, _) :: _ => None
  end.

(** The binding of arguments to the parameters [params]: the arguments
    by position first, then those by name; [None] when an argument has
    no parameter or a parameter gets two. *)
Fixpoint bind_positional (params : list string) (args : list value)
  : option (list (string * option value)) :=
  match params, args with
  | p :: params', a :: args' =>
      option_map (cons (p, Some a)) (bind_positional params' args')
  | _, [] => Some (map (fun p => (p, None)) params)
  | [], _ :: _ => None
  end.

Fixpoint bind_keyword (k : string) (v : value) (slots : list (string * option value))
  : option (list (string * option value)) :=
  match slots with
  | [] => None
  | (p, s) :: slots' =>
      if String.eqb k p then
        match s with
        | None => Some ((p, Some v) :: slots')
        | Some _ => None
        end
      else option_map (cons (p, s)) (bind_keyword k v slots')
  end.

Fixpoint bind_keywords (d : list (string * value)) (slots : list (string * option value))
  : option (list (string * option value)) :=
  match d with
  | [] => Some slots
  | (k, v) :: d' =>
      match bind_keyword k v slots with
      | Some slots' => bind_keywords d' slots'
      | None => None
      end
  end.

Definition bind_args (params : list string) (args : list value)
           (kws : list (option string * value)) : option (list (option value)) :=
  match dict_of kws [], bind_positional params args with
  | Some d, Some slots => option_map (map snd) (bind_keywords d slots)
  | _, _ => None
  end.

(** Line 143: [fn] called on the positional and the named arguments. *)
Definition call (fn : pyfunc) (args : list value) (kws : list (option string * value))
  : result value :=
  match fn with
  | CFunction f =>
      match dict_of kws [] with
      | Some [] => f args
      | _ => Raise TypeError
      end
  | Lambda1 x body =>
      match bind_args [x] args kws with
      | Some [Some a] => body a
      | _ => Raise TypeError
      end
  | Lambda2 x b b_default body =>
      match bind_args [x; b] args kws with
      | Some [Some a; Some c] => body a c
      | Some [Some a; None] => body a b_default
      | _ => Raise TypeError
      end
  | BuiltinPow =>
      match bind_args ["base"; "exp"; "mod"] args kws with
      | Some [Some a; Some b; None] => arith ast.Pow a b
      | Some [Some a; Some b; Some m] => pow3 a b m
      | _ => Raise TypeError
      end
  end.

(** A function of the [math] module with one [float] argument. *)
Definition math_1 (f : float -> result float) : pyfunc :=
  CFunction (fun args =>
    match args with
    | [v] => let* x := as_double v in let* r := f x in Ok (VFloat r)
    | _ => Raise TypeError
    end).

(** [math.radians] and [math.degrees]. *)
Definition math_radians (v : value) : result value :=
  let* x := as_double v in Ok (VFloat (x * (math_pi / 180))).

Definition math_degrees (v : value) : result value :=
  let* x := as_double v in Ok (VFloat (x * (180 / math_pi))).

(** [math.sqrt]. *)
Definition math_sqrt : pyfunc :=
  CFunction (fun args =>
    match args with
    | [v] =>
        let* x := as_double v in
        if (x <? 0)%float then Raise (ValueError "math domain error")
        else Ok (VFloat (sqrt x))
    | _ => Raise TypeError
    end).

(** [math.factorial]: of an [int] only, and up to [LONG_MAX]. *)
Definition math_factorial : pyfunc :=
  CFunction (fun args =>
    match args with
    | [VInt _ as v] | [VBool _ as v] =>
        let n := int_of v in
        if n <? 0
        then Raise (ValueError "factorial() not defined for negative values")
        else if 2 ^ 63 <=? n then Raise OverflowError
        else Ok (VInt (fact_nat (Z.to_nat n)))
    | _ => Raise TypeError
    end).

(** [math.floor] and [math.ceil]; the ceiling of [x] is the opposite
    of the floor of [- x]. *)
Definition float_to_int (up : bool) (x : float) : result value :=
  if is_nan x then Raise (ValueError "cannot convert float NaN to integer")
  else match float_floor (if up then (- x)%float else x) with
       | Some n => Ok (VInt (if up then - n else n))
       | None => Raise OverflowError
       end.

Definition math_floor : pyfunc :=
  CFunction (fun args =>
    match args with
    | [VFloat x] => float_to_int false x
    | [VInt _ as v] | [VBool _ as v] => Ok (VInt (int_of v))
    | _ => Raise TypeError
    end).

Definition math_ceil : pyfunc :=
  CFunction (fun args =>
    match args with
    | [VFloat x] => float_to_int true x
    | [VInt _ as v] | [VBool _ as v] => Ok (VInt (int_of v))
    | _ => Raise TypeError
    end).

(** The built in [abs]. *)
Definition builtin_abs : pyfunc :=
  CFunction (fun args =>
    match args with
    | [VFloat x] => Ok (VFloat (abs x))
    | [VComplex re im] => let* r := complex_abs re im in Ok (VFloat r)
    | [v] => Ok (VInt (Z.abs (int_of v)))
    | _ => Raise TypeError
    end).

(** [math.log], with one or two arguments. *)
Definition math_log_fn : pyfunc :=
  CFunction (fun args =>
    match args with
    | [x] => math_log x None
    | [x; b] => math_log x (Some b)
    | _ => Raise TypeError
    end).

Section Tables.

Variable vars : gmap string value.
Variable deg_mode : bool.

Definition _wrap_trig (f : pyfunc) : pyfunc :=
  if deg_mode
  then Lambda1 "x" (fun x => let* r := math_radians x in call f [r] [])
  else f.

Definition _wrap_atrig (f : pyfunc) : pyfunc :=
  if deg_mode
  then Lambda1 "x" (fun x => let* r := call f [x] [] in math_degrees r)
  else f.

Definition funcs : gmap string pyfunc :=
  list_to_map
    [ ("sin", _wrap_trig (math_1 math_sin));
      ("cos", _wrap_trig (math_1 math_cos));
      ("tan", _wrap_trig (math_1 math_tan));
      ("asin", _wrap_atrig (math_1 math_asin));
      ("acos", _wrap_atrig (math_1 math_acos));
      ("atan", _wrap_atrig (math_1 math_atan));
      ("log", Lambda2 "x" "b" (VInt 10) (fun x b => call math_log_fn [x; b] []));
      ("ln", math_log_fn);
      ("sqrt", math_sqrt);
      ("abs", builtin_abs);
      ("floor", math_floor);
      ("ceil", math_ceil);
      ("fact", math_factorial);
      ("pow", BuiltinPow) ].

(** [self.consts], line 109. *)
Definition consts : gmap string value :=
  list_to_map [ ("pi", VFloat math_pi); ("e", VFloat math_e) ].

(** *** The tree walk: [SafeEvaluator.visit], lines 111 to 154

    The test of line 114 holds of a constant that is an [int], a
    [float] or a [complex] and not a [bool]; the test of line 117 then
    lets a [bool] through, [bool] being a subclass of [int].  The [ast]
    module has no attribute [Paren], so the test of line 150 raises for
    every node that reaches it. *)
Fixpoint visit (node : ast.node) : result value :=
  match node with
  | ast.Expression body => visit body
  | ast.Constant (ast.CInt n) => Ok (VInt n)
  | ast.Constant (ast.CFloat x) => Ok (VFloat x)
  | ast.Constant (ast.CComplex re im) => Ok (VComplex re im)
  | ast.Constant (ast.CBool b) => Ok (VBool b)
  | ast.Constant _ => Raise (ValueError "Only numeric constants allowed.")
  | ast.BinOp lhs op rhs =>
      match bin_ops op with
      | None => Raise (ValueError "Unsupported operator.")
      | Some f =>
          let* l := visit lhs in
          let* r := visit rhs in
          f l r
      end
  | ast.UnaryOp op operand =>
      match unary_ops op with
      | None => Raise (ValueError "Unsupported unary operator.")
      | Some f => let* v := visit operand in f v
      end
  | ast.Call func args keywords =>
      match func with
      | ast.Name name =>
          match funcs !! name with
          | None => Raise (ValueError ("Unknown function: " +:+ name))
          | Some fn =>
              let* a :=
                (fix visit_args (l : list ast.node) : result (list value) :=
                   match l with
                   | [] => Ok []
                   | n :: l' =>
                       let* v := visit n in
                       let* vs := visit_args l' in
                       Ok (v :: vs)
                   end) args in
              let* k :=
                (fix visit_keywords (l : list (option string * ast.node))
                   : result (list (option string * value)) :=
                   match l with
                   | [] => Ok []
                   | (arg, n) :: l' =>
                       let* v := visit n in
                       let* vs := visit_keywords l' in
                       Ok ((arg, v) :: vs)
                   end) keywords in
              call fn a k
          end
      | _ => Raise (ValueError "Only simple function calls allowed.")
      end
  | ast.Name id =>
      match consts !! id with
      | Some c => Ok c
      | None =>
          match vars !! id with
          | Some v => Ok v
          | None => Raise (ValueError ("Unknown identifier: " +:+ id))
          end
      end
  | _ => Raise (AttributeError "module 'ast' has no attribute 'Paren'")
  end.

End Tables.

End Evaluator.

(** ** The parser of the host: [ast.parse(expr, mode="eval")]

    The fragment of the grammar that is written out here: numbers (an
    integer, a decimal fraction, either as an imaginary literal), names,
    [True], [False] and [None], parentheses, calls with positional and
    named arguments, the unary [+] and [-], the binary [+ - * / // % **]
    and the comparisons [< > <= >= == !=].  On a text of the fragment
    [parse_fragment] returns the tree or the syntax error of the host; on
    any other text it returns [None] and the host is asked. *)

Inductive op :=
| PLUS | MINUS | STAR | SLASH | DOUBLESLASH | PERCENT | DOUBLESTAR
| LPAR | RPAR | COMMA | EQUAL
| LESS | GREATER | LESSEQUAL | GREATEREQUAL | EQEQUAL | NOTEQUAL.

(** [OUTSIDE] stands for a piece of text that the fragment does not
    cover and that cannot hide what follows it; [OPAQUE] for one that can
    (a quote, a comment, a NUL), at which the reading stops; [ERRORTOKEN]
    for a character that starts no token of the language. *)
Inductive token :=
| NUMBER (c : ast.constant)
| NAME (id : string)
| OP (o : op)
| OUTSIDE
| OPAQUE
| ERRORTOKEN.

Definition ch_is (c : ascii) (s : string) : bool := String.eqb (chr c) s.

Definition is_blank (c : ascii) : bool :=
  ch_is c " " || (N_of_ascii c =? 9)%N || (N_of_ascii c =? 12)%N.

Definition is_ident_start (c : ascii) : bool :=
  let n := N_of_ascii c in
  ((65 <=? n)%N && (n <=? 90)%N) || ((97 <=? n)%N && (n <=? 122)%N) || ch_is c "_".

Definition is_ident_char (c : ascii) : bool := is_ident_start c || isdigit c.

Definition is_opaque (c : ascii) : bool :=
  (N_of_ascii c =? 34)%N || (N_of_ascii c =? 39)%N || ch_is c "#" || (N_of_ascii c =? 0)%N.

Fixpoint span (p : ascii -> bool) (s : list ascii) : list ascii * list ascii :=
  match s with
  | c :: s' =>
      if p c then let '(a, b) := span p s' in (c :: a, b) else ([], s)
  | [] => ([], [])
  end.

Definition digits_to_Z (ds : list ascii) : Z :=
  fold_left (fun acc c => 10 * acc + (Z.of_N (N_of_ascii c) - 48)) ds 0.

Definition starts_with (p : ascii -> bool) (s : list ascii) : bool :=
  match s with
  | c :: _ => p c
  | [] => false
  end.

(** The float of a decimal literal with mantissa [m] and [k] digits after
    the point, when both [m] and [10 ^ k] are exact as floats: their
    quotient is then the nearest float of the literal. *)
Definition decimal_float (m : Z) (k : nat) : option float :=
  if exact_float m && (k <=? 22)%nat
  then Some (z2f m / z2f (10 ^ Z.of_nat k))%float
  else None.

(** A number, the input standing at a digit or at a point that a digit
    follows: the digits before the point, the point and the digits after
    it, and the [j] of an imaginary literal. *)
Definition fraction (r1 : list ascii) : bool * list ascii * list ascii :=
  match r1 with
  | c :: r1' =>
      if Ascii.eqb c dot
      then let '(fp, r2) := span isdigit r1' in (true, fp, r2)
      else (false, [], r1)
  | [] => (false, [], r1)
  end.

Definition imaginary (r2 : list ascii) : bool * list ascii :=
  match r2 with
  | c :: r2' => if ch_is c "j" || ch_is c "J" then (true, r2') else (false, r2)
  | [] => (false, r2)
  end.

(** The token of a number.  A literal whose value this file does not
    compute is left to the host: one with a zero in front, one of more
    than 4000 digits, a decimal that is not the quotient of two exact
    floats. *)
Definition number_token (ip fp : list ascii) (is_float imag : bool) : token :=
  let leading_zero :=
    match ip with
    | c :: _ :: _ => ch_is c "0"
    | _ => false
    end in
  let number :=
    if leading_zero || (4000 <? List.length ip + List.length fp)%nat then None
    else if imag then
      option_map (ast.CComplex 0%float)
                 (decimal_float (digits_to_Z (ip ++ fp)) (List.length fp))
    else if is_float then
      option_map ast.CFloat
                 (decimal_float (digits_to_Z (ip ++ fp)) (List.length fp))
    else Some (ast.CInt (digits_to_Z ip)) in
  match number with
  | Some c => NUMBER c
  | None => OUTSIDE
  end.

Definition lex_number (s : list ascii) : list token * list ascii :=
  let '(ip, r1) := span isdigit s in
  let '(is_float, fp, r2) := fraction r1 in
  let '(imag, r3) := imaginary r2 in
  let tok := number_token ip fp is_float imag in
  (if starts_with is_ident_char r3 then [tok; OUTSIDE] else [tok], r3).

(** An operator or a character that is none. *)
Definition lex_op (c : ascii) (r : list ascii) : token * list ascii :=
  let two (k : string) (t2 : token) (t1 : token) :=
    match r with
    | d :: r' => if ch_is d k then (t2, r') else (t1, r)
    | [] => (t1, r)
    end in
  if ch_is c "+" then (OP PLUS, r)
  else if ch_is c "-" then (OP MINUS, r)
  else if ch_is c "*" then two "*" (OP DOUBLESTAR) (OP STAR)
  else if ch_is c "/" then two "/" (OP DOUBLESLASH) (OP SLASH)
  else if ch_is c "%" then (OP PERCENT, r)
  else if ch_is c "(" then (OP LPAR, r)
  else if ch_is c ")" then (OP RPAR, r)
  else if ch_is c "," then (OP COMMA, r)
  else if ch_is c "=" then two "=" (OP EQEQUAL) (OP EQUAL)
  else if ch_is c "<" then
    (if starts_with (fun d => ch_is d "<") r then (OUTSIDE, r)
     else two "=" (OP LESSEQUAL) (OP LESS))
  else if ch_is c ">" then
    (if starts_with (fun d => ch_is d ">") r then (OUTSIDE, r)
     else two "=" (OP GREATEREQUAL) (OP GREATER))
  else if ch_is c "!" then two "=" (OP NOTEQUAL) ERRORTOKEN
  else if ch_is c "$" || ch_is c "?" then (ERRORTOKEN, r)
  else (OUTSIDE, r).

Fixpoint tokenize (fuel : nat) (s : list ascii) : list token :=
  match s, fuel with
  | [], _ => []
  | _ :: _, O => [OUTSIDE]
  | c :: r, S fuel' =>
      if is_blank c then tokenize fuel' r
      else if is_opaque c then [OPAQUE]
      else if isdigit c || (Ascii.eqb c dot && starts_with isdigit r) then
        let '(toks, r') := lex_number s in toks ++ tokenize fuel' r'
      else if is_ident_start c then
        let '(id, r') := span is_ident_char s in
        NAME (string_of_list_ascii id) :: tokenize fuel' r'
      else
        let '(tok, r') := lex_op c r in tok :: tokenize fuel' r'
  end.

Definition keywords : list string :=
  [ "False"; "None"; "True"; "and"; "as"; "assert"; "async"; "await";
    "break"; "class"; "continue"; "def"; "del"; "elif"; "else"; "except";
    "finally"; "for"; "from"; "global"; "if"; "import"; "in"; "is";
    "lambda"; "nonlocal"; "not"; "or"; "pass"; "raise"; "return"; "try";
    "while"; "with"; "yield" ].

Definition is_keyword (id : string) : bool := existsb (String.eqb id) keywords.

(** The outcome of a parsing function: a tree and the tokens left, a
    syntax error, or a text beyond the fragment. *)
Inductive presult (A : Type) :=
| Got (a : A) (rest : list token)
| Bad
| Beyond.

Arguments Got {A} a rest.
Arguments Bad {A}.
Arguments Beyond {A}.

(** What a token that follows a complete expression, and is no operator
    of the place, means. *)
Definition after_expr {A} (ts : list token) : presult A :=
  match ts with
  | NAME k :: _ => if is_keyword k then Beyond else Bad
  | OP COMMA :: _ => Beyond
  | _ => Bad
  end.

Definition binary_op (level : nat) (t : token) : option ast.operator :=
  match level, t with
  | 0%nat, OP PLUS => Some ast.Add
  | 0%nat, OP MINUS => Some ast.Sub
  | 1%nat, OP STAR => Some ast.Mult
  | 1%nat, OP SLASH => Some ast.Div
  | 1%nat, OP DOUBLESLASH => Some ast.FloorDiv
  | 1%nat, OP PERCENT => Some ast.Mod
  | _, _ => None
  end.

Definition compare_op (t : token) : option ast.cmpop :=
  match t with
  | OP LESS => Some ast.Lt
  | OP GREATER => Some ast.Gt
  | OP LESSEQUAL => Some ast.LtE
  | OP GREATEREQUAL => Some ast.GtE
  | OP EQEQUAL => Some ast.Eq
  | OP NOTEQUAL => Some ast.NotEq
  | _ => None
  end.

(** [lhs (op operand)*] for the left associative operators of [level]. *)
Fixpoint binary_loop (fuel : nat) (operand : list token -> presult ast.node)
         (level : nat) (lhs : ast.node) (ts : list token) : presult ast.node :=
  match ts, fuel with
  | t :: ts', S fuel' =>
      match binary_op level t with
      | Some o =>
          match operand ts' with
          | Got rhs rest => binary_loop fuel' operand level (ast.BinOp lhs o rhs) rest
          | Bad => Bad
          | Beyond => Beyond
          end
      | None => Got lhs ts
      end
  | [], _ => Got lhs ts
  | _ :: _, O => Beyond
  end.

Definition binary (fuel : nat) (operand : list token -> presult ast.node)
           (level : nat) (ts : list token) : presult ast.node :=
  match operand ts with
  | Got lhs rest => binary_loop fuel operand level lhs rest
  | e => e
  end.

(** [(cmpop operand)*], the operators and the operands in order. *)
Fixpoint compare_loop (fuel : nat) (operand : list token -> presult ast.node)
         (ts : list token) : presult (list ast.cmpop * list ast.node) :=
  match ts, fuel with
  | t :: ts', S fuel' =>
      match compare_op t with
      | Some o =>
          match operand ts' with
          | Got rhs rest =>
              match compare_loop fuel' operand rest with
              | Got (ops, cs) rest' => Got (o :: ops, rhs :: cs) rest'
              | e => e
              end
          | Bad => Bad
          | Beyond => Beyond
          end
      | None => Got ([], []) ts
      end
  | [], _ => Got ([], []) ts
  | _ :: _, O => Beyond
  end.

(** The arguments of a call, the input standing after ["("] or after a
    comma; [named] tells that an argument by name has been read. *)
Fixpoint arguments (fuel : nat) (expr : list token -> presult ast.node)
         (named : bool) (ts : list token)
  : presult (list ast.node * list (option string * ast.node)) :=
  match fuel with
  | O => Beyond
  | S fuel' =>
      match ts with
      | OP RPAR :: r => Got ([], []) r
      | NAME k :: OP EQUAL :: r =>
          if is_keyword k then Beyond
          else
            match expr r with
            | Got v r' =>
                match r' with
                | OP RPAR :: r'' => Got ([], [(Some k, v)]) r''
                | OP COMMA :: OP RPAR :: r'' => Got ([], [(Some k, v)]) r''
                | OP COMMA :: r'' =>
                    match arguments fuel' expr true r'' with
                    | Got (a, kw) rest => Got (a, (Some k, v) :: kw) rest
                    | e => e
                    end
                | _ => after_expr r'
                end
            | Bad => Bad
            | Beyond => Beyond
            end
      | _ =>
          match expr ts with
          | Got v r' =>
              if named then Bad
              else
                match r' with
                | OP RPAR :: r'' => Got ([v], []) r''
                | OP COMMA :: OP RPAR :: r'' => Got ([v], []) r''
                | OP COMMA :: r'' =>
                    match arguments fuel' expr false r'' with
                    | Got (a, kw) rest => Got (v :: a, kw) rest
                    | e => e
                    end
                | _ => after_expr r'
                end
          | Bad => Bad
          | Beyond => Beyond
          end
      end
  end.

(** The expressions of the fragment.  [p_expr] reads a comparison over
    sums over terms; [p_factor] the unary operators and the power;
    [p_primary] an atom and the calls on it. *)
Fixpoint p_expr (fuel : nat) (ts : list token) : presult ast.node :=
  match fuel with
  | O => Beyond
  | S fuel' =>
      let term := binary fuel' (p_factor fuel') 1 in
      let sum := binary fuel' term 0 in
      match sum ts with
      | Got lhs rest =>
          match compare_loop fuel' sum rest with
          | Got ([], _) rest' => Got lhs rest'
          | Got (ops, cs) rest' => Got (ast.Compare lhs ops cs) rest'
          | Bad => Bad
          | Beyond => Beyond
          end
      | e => e
      end
  end

with p_factor (fuel : nat) (ts : list token) : presult ast.node :=
  match fuel with
  | O => Beyond
  | S fuel' =>
      let unary (o : ast.unaryop) (r : list token) :=
        match p_factor fuel' r with
        | Got e rest => Got (ast.UnaryOp o e) rest
        | e => e
        end in
      match ts with
      | OP PLUS :: r => unary ast.UAdd r
      | OP MINUS :: r => unary ast.USub r
      | _ =>
          match p_primary fuel' ts with
          | Got base (OP DOUBLESTAR :: r) =>
              match p_factor fuel' r with
              | Got e rest => Got (ast.BinOp base ast.Pow e) rest
              | e => e
              end
          | e => e
          end
      end
  end

with p_primary (fuel : nat) (ts : list token) : presult ast.node :=
  match fuel with
  | O => Beyond
  | S fuel' =>
      let atom : presult ast.node :=
        match ts with
        | NUMBER c :: r => Got (ast.Constant c) r
        | NAME id :: r =>
            if String.eqb id "True" then Got (ast.Constant (ast.CBool true)) r
            else if String.eqb id "False" then Got (ast.Constant (ast.CBool false)) r
            else if String.eqb id "None" then Got (ast.Constant ast.CNone) r
            else if is_keyword id then Beyond
            else Got (ast.Name id) r
        | OP LPAR :: OP RPAR :: _ => Beyond
        | OP LPAR :: r =>
            match p_expr fuel' r with
            | Got e (OP RPAR :: rest) => Got e rest
            | Got _ rest => after_expr rest
            | e => e
            end
        | OP STAR :: _ | OP DOUBLESTAR :: _ => Beyond
        | _ => Bad
        end in
      match atom with
      | Got f rest =>
          (fix calls (n : nat) (f : ast.node) (rest : list token) : presult ast.node :=
             match rest, n with
             | OP LPAR :: r, S n' =>
                 match arguments fuel' (p_expr fuel') false r with
                 | Got (a, kw) rest' => calls n' (ast.Call f a kw) rest'
                 | Bad => Bad
                 | Beyond => Beyond
                 end
             | OP LPAR :: _, O => Beyond
             | _, _ => Got f rest
             end) fuel' f rest
      | e => e
      end
  end.

Fixpoint nesting (ts : list token) (depth deepest : nat) : nat :=
  match ts with
  | OP LPAR :: ts' => nesting ts' (S depth) (Nat.max deepest (S depth))
  | OP RPAR :: ts' => nesting ts' (Nat.pred depth) deepest
  | _ :: ts' => nesting ts' depth deepest
  | [] => deepest
  end.

Definition is_token (t u : token) : bool :=
  match t, u with
  | OUTSIDE, OUTSIDE | OPAQUE, OPAQUE | ERRORTOKEN, ERRORTOKEN => true
  | _, _ => false
  end.

(** The verdict of the fragment on a text, [None] when the text is not of
    the fragment.  A character that starts no token is a syntax error
    whatever stands before it, short of a quote or a comment. *)
Definition parse_fragment (text : string) : option ast.parsed :=
  let s := list_ascii_of_string text in
  let ts := tokenize (List.length s) s in
  if existsb (is_token ERRORTOKEN) ts then Some ast.SyntaxError
  else if existsb (is_token OUTSIDE) ts || existsb (is_token OPAQUE) ts
          || starts_with is_blank s || (100 <? nesting ts 0 0)%nat
  then None
  else
    match p_expr (4 * List.length ts + 8) ts with
    | Got e [] => Some (ast.Tree (ast.Expression e))
    | Got _ rest =>
        match @after_expr unit rest with
        | Bad => Some ast.SyntaxError
        | _ => None
        end
    | Bad => Some ast.SyntaxError
    | Beyond => None
    end.

Section Program.

Context {host : Host}.

Definition ast_parse (text : string) : ast.parsed :=
  match parse_fragment text with
  | Some p => p
  | None => host_parse text
  end.

(** ** [SafeEvaluator] *)

Record SafeEvaluator := {
  self_vars : gmap string value;
  self_deg_mode : bool
}.

(** [__init__], lines 65 to 68: [variables or {}]. *)
Definition SafeEvaluator_init (variables : option (gmap string value)) (deg_mode : bool)
  : SafeEvaluator :=
  {| self_vars := default ∅ variables; self_deg_mode := deg_mode |}.

(** [SafeEvaluator.eval], lines 156 to 221. *)
Definition eval (self : SafeEvaluator) (expr : string) : result value :=
  let expr := preprocess expr in
  match ast_parse expr with
  | ast.SyntaxError => Raise (ValueError "Syntax error.")
  | ast.Raises kind => Raise (HostError kind)
  | ast.Tree node => visit (self_vars self) (self_deg_mode self) node
  end.

(** ** [CalcApp]: the state of the window and the entry point *)

Record CalcApp := {
  entry : string;
  deg_mode : bool;
  memory : float;
  ans : float;
  undo_stack : list string;
  redo_stack : list string;
  hist : list string
}.

(** A method of [CalcApp]: it returns or raises, and leaves a state. *)
Definition method (A : Type) : Type := CalcApp -> result A * CalcApp.

Definition ret {A} (a : A) : method A := fun self => (Ok a, self).

Definition raise {A} (e : exn) : method A := fun self => (Raise e, self).

Definition get {A} (field : CalcApp -> A) : method A := fun self => (Ok (field self), self).

Definition lift {A} (r : result A) : method A := fun self => (r, self).

Definition mbind_method {A B} (m : method A) (k : A -> method B) : method B :=
  fun self =>
    match m self with
    | (Ok a, self') => k a self'
    | (Raise e, self') => (Raise e, self')
    end.

(** [float(val)], line 430. *)
Definition to_float (v : value) : result float := as_double v.

(** [CalcApp._evaluate_silent], lines 420 to 430. *)
Definition _evaluate_silent : method float :=
  mbind_method (get entry) (fun text =>
  let expr := strip text in
  if String.eqb expr EmptyString then ret 0%float
  else
    mbind_method (get ans) (fun a =>
    mbind_method (get deg_mode) (fun d =>
    let variables : gmap string value := {[ "Ans" := VFloat a ]} in
    let ev := SafeEvaluator_init (Some variables) d in
    mbind_method (lift (eval ev expr)) (fun val =>
    if is_complex val
    then raise (ValueError "Complex results not supported.")
    else lift (to_float val))))).

(** The call of the specification: the text of the entry, the last
    result and the angle mode. *)
Definition evaluate (expression : string) (last : float) (degrees : bool)
  : result float :=
  fst (_evaluate_silent
         {| entry := expression; deg_mode := degrees; memory := 0;
            ans := last; undo_stack := []; redo_stack := []; hist := [] |}).

End Program.


(** ** Predicates of the statements *)




(** A text as the user types it: ASCII characters and the two glyphs of
    the buttons, written to the bytes of a [str] by [encode_text]; and what the
    specification substitutes for each of them. *)
Inductive symbol :=
| Char (c : ascii)
| Times
| Divide.

Definition encode_symbol (x : symbol) : string :=
  match x with
  | Char c => chr c
  | Times => "×"
  | Divide => "÷"
  end.

Definition encode_text (text : list symbol) : string := join (map encode_symbol text).

Definition is_ascii (x : symbol) : bool :=
  match x with
  | Char c => (N_of_ascii c <? 128)%N
  | _ => true
  end.

Definition substitute_symbol (x : symbol) : string :=
  match x with
  | Times => "*"
  | Divide => "/"
  | Char c =>
      if Ascii.eqb c "^" then "**"
      else if Ascii.eqb c "%" then "/100"
      else chr c
  end.





Definition no_bang (c : ascii) : bool := negb (Ascii.eqb c bang).





(** A character of a span between parentheses that holds no parenthesis
    and no factorial sign of its own. *)
Definition plain_char (c : ascii) : bool :=
  negb (Ascii.eqb c bang) && negb (Ascii.eqb c lparen) && negb (Ascii.eqb c rparen).


(** ** The window of [CalcApp]: its widgets and its callbacks, lines 224 to 457

    The fields of [CalcApp] above are the state that [__init__] sets
    and the texts of the entry and of the list of the history.  A
    [Window] adds what the callbacks reach of the widgets: the insertion
    cursor of the entry, the texts of the two labels, and the errors
    that [messagebox.showerror] has shown.  A callback catches what the
    evaluation raises, so it is a function from windows to windows. *)

(** What the callbacks take from the host and is not computed here: the
    text of a [float] under [f"{x:.12g}"] and under [str(x)], and
    [str.isprintable]. *)
Class Display := {
  format_12g : float -> string;
  float_str : float -> string;
  isprintable : string -> bool
}.

(** *** Characters and indices

    The indices of [len] and of the entry count characters.  In the
    UTF-8 bytes of a text a byte from 0x80 to 0xBF continues the
    character of the byte before it. *)
Definition continuation (c : ascii) : bool :=
  let n := N_of_ascii c in (128 <=? n)%N && (n <=? 191)%N.

Definition continues (s : string) : bool :=
  match s with
  | String c _ => continuation c
  | EmptyString => false
  end.

(** [len(s)]. *)
Fixpoint len (s : string) : nat :=
  match s with
  | EmptyString => O
  | String c s' => if continues s' then len s' else S (len s')
  end.

(** [(s[:i], s[i:])] for [0 <= i]. *)
Fixpoint split_chars (i : nat) (s : string) : string * string :=
  match s, i with
  | String c s', S i' =>
      let '(a, b) := split_chars (if continues s' then i else i') s' in
      (String c a, b)
  | _, _ => (EmptyString, s)
  end.

(** [s[n:]] for the length [n] of [p]. *)
Fixpoint after (p s : string) : string :=
  match p, s with
  | String _ p', String _ s' => after p' s'
  | _, _ => s
  end.

(** [s.split(sep, 1)] for a separator that is not empty: [None] when
    [sep] is not in [s], and else what stands before and after its first
    occurrence. *)
Fixpoint split_once (sep s : string) : option (string * string) :=
  match s with
  | EmptyString => None
  | String c s' =>
      if startswith sep s then Some (EmptyString, after sep s)
      else match split_once sep s' with
           | Some (a, b) => Some (String c a, b)
           | None => None
           end
  end.

(** [d.get(k, default)] on a dictionary written out as its items. *)
Fixpoint dict_get (d : list (string * string)) (k default : string) : string :=
  match d with
  | [] => default
  | (k', v) :: d' => if String.eqb k k' then v else dict_get d' k default
  end.

(** *** The fields, one assignment at a time *)

Definition set_entry (text : string) (a : CalcApp) : CalcApp :=
  {| entry := text; deg_mode := deg_mode a; memory := memory a; ans := ans a;
     undo_stack := undo_stack a; redo_stack := redo_stack a; hist := hist a |}.

Definition set_deg_mode (d : bool) (a : CalcApp) : CalcApp :=
  {| entry := entry a; deg_mode := d; memory := memory a; ans := ans a;
     undo_stack := undo_stack a; redo_stack := redo_stack a; hist := hist a |}.

Definition set_memory (m : float) (a : CalcApp) : CalcApp :=
  {| entry := entry a; deg_mode := deg_mode a; memory := m; ans := ans a;
     undo_stack := undo_stack a; redo_stack := redo_stack a; hist := hist a |}.

Definition set_ans (x : float) (a : CalcApp) : CalcApp :=
  {| entry := entry a; deg_mode := deg_mode a; memory := memory a; ans := x;
     undo_stack := undo_stack a; redo_stack := redo_stack a; hist := hist a |}.

Definition set_undo_stack (l : list string) (a : CalcApp) : CalcApp :=
  {| entry := entry a; deg_mode := deg_mode a; memory := memory a; ans := ans a;
     undo_stack := l; redo_stack := redo_stack a; hist := hist a |}.

Definition set_redo_stack (l : list string) (a : CalcApp) : CalcApp :=
  {| entry := entry a; deg_mode := deg_mode a; memory := memory a; ans := ans a;
     undo_stack := undo_stack a; redo_stack := l; hist := hist a |}.

Definition set_hist (l : list string) (a : CalcApp) : CalcApp :=
  {| entry := entry a; deg_mode := deg_mode a; memory := memory a; ans := ans a;
     undo_stack := undo_stack a; redo_stack := redo_stack a; hist := l |}.

Record Window := {
  fields : CalcApp;
  insert_pos : nat;
  ans_lbl : string;
  info : string;
  shown : list (string * exn)
}.

Definition on_fields (f : CalcApp -> CalcApp) (w : Window) : Window :=
  {| fields := f (fields w); insert_pos := insert_pos w; ans_lbl := ans_lbl w;
     info := info w; shown := shown w |}.

Definition set_insert_pos (i : nat) (w : Window) : Window :=
  {| fields := fields w; insert_pos := i; ans_lbl := ans_lbl w;
     info := info w; shown := shown w |}.

(** [self.ans_lbl.config(text=...)] and [self.info.config(text=...)]. *)
Definition ans_lbl_config (text : string) (w : Window) : Window :=
  {| fields := fields w; insert_pos := insert_pos w; ans_lbl := text;
     info := info w; shown := shown w |}.

Definition info_config (text : string) (w : Window) : Window :=
  {| fields := fields w; insert_pos := insert_pos w; ans_lbl := ans_lbl w;
     info := text; shown := shown w |}.

(** [messagebox.showerror(title, str(e))]: the window keeps the
    exception whose text the dialog shows. *)
Definition showerror (title : string) (e : exn) (w : Window) : Window :=
  {| fields := fields w; insert_pos := insert_pos w; ans_lbl := ans_lbl w;
     info := info w; shown := shown w ++ [(title, e)] |}.

(** *** The entry: [ttk.Entry]

    [entry.insert(index, text)] and [entry.delete(first, last)].  An
    index past the end is the end.  The cursor stays with the character
    it stands before: it moves right with a text put in at or before it,
    and left with a text taken out before it. *)
Definition entry_end (w : Window) : nat := len (entry (fields w)).

Definition entry_insert (index : nat) (text : string) (w : Window) : Window :=
  let old := entry (fields w) in
  let i := Nat.min index (len old) in
  let '(a, b) := split_chars i old in
  let cursor := insert_pos w in
  set_insert_pos (if Nat.leb i cursor then (cursor + len text)%nat else cursor)
    (on_fields (set_entry (a +:+ text +:+ b)) w).

Definition entry_delete (first last : nat) (w : Window) : Window :=
  let old := entry (fields w) in
  let last := Nat.min last (len old) in
  if Nat.ltb first last then
    let '(a, r) := split_chars first old in
    let '(_, b) := split_chars (last - first) r in
    let cursor := insert_pos w in
    set_insert_pos
      (if Nat.ltb cursor first then cursor
       else if Nat.leb last cursor then (cursor - (last - first))%nat
       else first)
      (on_fields (set_entry (a +:+ b)) w)
  else w.

(** *** [__init__], lines 225 to 239, with the texts that [_build_ui]
    gives the two labels, lines 254 and 298 *)
Definition CalcApp_init : Window :=
  {| fields := {| entry := EmptyString; deg_mode := true; memory := 0; ans := 0;
                  undo_stack := []; redo_stack := []; hist := [] |};
     insert_pos := O;
     ans_lbl := "Ans = 0";
     info := "Use keyboard: Enter=equals, Esc=clear, Backspace=⌫, Ctrl+Z/Y undo/redo";
     shown := [] |}.

Section Callbacks.

Context {host : Host} {display : Display}.

(** [_snapshot], lines 329 and 330. *)
Definition _snapshot (w : Window) : Window :=
  on_fields (fun a => set_undo_stack (undo_stack a ++ [entry a]) a) w.

(** [_insert_key], lines 317 to 319, on the character of the event. *)
Definition _insert_key (char : string) (w : Window) : Window :=
  let w := _snapshot w in
  entry_insert (insert_pos w) char w.

(** [_on_any_key], lines 321 to 324. *)
Definition _on_any_key (char : string) (w : Window) : Window :=
  if negb (String.eqb char EmptyString) && isprintable char
  then on_fields (set_redo_stack []) w
  else w.

(** [_on_mode_change], lines 326 and 327. *)
Definition _on_mode_change (w : Window) : Window :=
  info_config
    ("Mode changed to "
       +:+ (if deg_mode (fields w) then "Degrees" else "Radians") +:+ ".") w.

(** [_undo], lines 332 to 337. *)
Definition _undo (w : Window) : Window :=
  match undo_stack (fields w) with
  | [] => w
  | _ :: _ =>
      let w := on_fields (fun a => set_redo_stack (redo_stack a ++ [entry a]) a) w in
      let prev := List.last (undo_stack (fields w)) EmptyString in
      let w := on_fields (fun a => set_undo_stack (removelast (undo_stack a)) a) w in
      let w := entry_delete 0 (entry_end w) w in
      entry_insert 0 prev w
  end.

(** [_redo], lines 339 to 344. *)
Definition _redo (w : Window) : Window :=
  match redo_stack (fields w) with
  | [] => w
  | _ :: _ =>
      let w := on_fields (fun a => set_undo_stack (undo_stack a ++ [entry a]) a) w in
      let nxt := List.last (redo_stack (fields w)) EmptyString in
      let w := on_fields (fun a => set_redo_stack (removelast (redo_stack a)) a) w in
      let w := entry_delete 0 (entry_end w) w in
      entry_insert 0 nxt w
  end.

(** [_on_history_double], lines 346 to 354, on the selection of the
    list: the indices of the rows selected. *)
Definition _on_history_double (sel : list nat) (w : Window) : Window :=
  match sel with
  | [] => w
  | row :: _ =>
      let text := nth row (hist (fields w)) EmptyString in
      match split_once " = " text with
      | Some (_, result) =>
          let w := entry_delete 0 (entry_end w) w in
          entry_insert 0 (strip result) w
      | None => w
      end
  end.

#[local] Set Warnings "-inexact-float".

(** [_fmt], lines 446 to 451. *)
Definition _fmt (x : float) : string :=
  let x := if (abs x <? 1e-9)%float then 0%float else x in
  format_12g x.

(** [_append_history], lines 453 to 457. *)
Definition _append_history (expr : string) (val : float) (w : Window) : Window :=
  let w := on_fields (fun a => set_hist ((expr +:+ " = " +:+ _fmt val) :: hist a) a) w in
  if Nat.ltb 200 (List.length (hist (fields w)))
  then on_fields (fun a => set_hist (removelast (hist a)) a) w
  else w.

(** [_do_equals], lines 432 to 444. *)
Definition _do_equals (w : Window) : Window :=
  let expr := strip (entry (fields w)) in
  if String.eqb expr EmptyString then w
  else
    match _evaluate_silent (fields w) with
    | (Ok val, self) =>
        let w := on_fields (fun _ => set_ans val self) w in
        let w := ans_lbl_config ("Ans = " +:+ _fmt val) w in
        let w := _append_history expr val w in
        let w := entry_delete 0 (entry_end w) w in
        entry_insert 0 (_fmt val) w
    | (Raise e, self) => showerror "Error" e (on_fields (fun _ => self) w)
    end.

(** The dictionary of line 392. *)
Definition token_map : list (string * string) :=
  [ ("mod", "%"); ("Ans", "Ans"); ("pi", "pi"); ("e", "e");
    ("sqrt", "sqrt("); ("sin", "sin("); ("cos", "cos("); ("tan", "tan(");
    ("asin", "asin("); ("acos", "acos("); ("atan", "atan(");
    ("ln", "ln("); ("log", "log("); ("abs", "abs("); ("floor", "floor(");
    ("ceil", "ceil(");
    ("!", "!"); ("^", "^"); ("//", "//"); ("+/-", "sign");
    ("Enter", "=") ].

(** The memory keys, lines 370 to 389. *)
Definition memory_key (label : string) (w : Window) : Window :=
  if String.eqb label "MC" then
    info_config "Memory cleared." (on_fields (set_memory 0) w)
  else if String.eqb label "MR" then
    let w := _snapshot w in
    entry_insert (insert_pos w) (float_str (memory (fields w))) w
  else if String.eqb label "M+" then
    match _evaluate_silent (fields w) with
    | (Ok val, self) =>
        info_config ("Memory += " +:+ float_str val)
          (on_fields (fun _ => set_memory (memory self + val) self) w)
    | (Raise e, self) => showerror "Memory Error" e (on_fields (fun _ => self) w)
    end
  else if String.eqb label "M-" then
    match _evaluate_silent (fields w) with
    | (Ok val, self) =>
        info_config ("Memory -= " +:+ float_str val)
          (on_fields (fun _ => set_memory (memory self - val) self) w)
    | (Raise e, self) => showerror "Memory Error" e (on_fields (fun _ => self) w)
    end
  else w.

(** [_press], lines 356 to 418. *)
Definition _press (label : string) (w : Window) : Window :=
  if String.eqb label "C" then
    let w := _snapshot w in
    let w := entry_delete 0 (entry_end w) w in
    on_fields (set_redo_stack []) w
  else if String.eqb label "⌫" then
    let w := _snapshot w in
    let s := entry (fields w) in
    if String.eqb s EmptyString then w
    else entry_delete (len s - 1) (entry_end w) w
  else if existsb (String.eqb label) ["MC"; "MR"; "M+"; "M-"] then
    memory_key label w
  else if String.eqb label "=" then _do_equals w
  else if String.eqb label "+/-" then
    let w := _snapshot w in
    let s := strip (entry (fields w)) in
    if String.eqb s EmptyString then entry_insert (insert_pos w) "-" w
    else
      let w := entry_delete 0 (entry_end w) w in
      entry_insert 0 ("-(" +:+ s +:+ ")") w
  else
    let w := _snapshot w in
    let insert := dict_get token_map label label in
    entry_insert (insert_pos w) insert w.

(** The callbacks that [_build_ui] and [_bind_keys] hand to the
    widgets, lines 252, 270, 289 and 305 to 314.  The tick box of the angle
    mode sets its variable before it calls [_on_mode_change]. *)
Inductive callback :=
| Press (label : string)
| InsertKey (char : string)
| AnyKey (char : string)
| ModeChange
| Undo
| Redo
| HistoryDouble (sel : list nat).

Definition run (c : callback) (w : Window) : Window :=
  match c with
  | Press label => _press label w
  | InsertKey char => _insert_key char w
  | AnyKey char => _on_any_key char w
  | ModeChange =>
      _on_mode_change (on_fields (fun a => set_deg_mode (negb (deg_mode a)) a) w)
  | Undo => _undo w
  | Redo => _redo w
  | HistoryDouble sel => _on_history_double sel w
  end.

End Callbacks.

(** ** Predicates of the statements on the tables and the window *)

(** The operators and the names of the tables of [SafeEvaluator]. *)
Definition binary_operators : list ast.operator :=
  [ast.Add; ast.Sub; ast.Mult; ast.Div; ast.FloorDiv; ast.Mod; ast.Pow].

Definition is_binary_operator (op : ast.operator) : bool :=
  match op with
  | ast.Add | ast.Sub | ast.Mult | ast.Div
  | ast.FloorDiv | ast.Mod | ast.Pow => true
  | _ => false
  end.

Definition is_unary_operator (op : ast.unaryop) : bool :=
  match op with
  | ast.UAdd | ast.USub => true
  | _ => false
  end.

Definition function_names : list string :=
  [ "sin"; "cos"; "tan"; "asin"; "acos"; "atan"; "log"; "ln"; "sqrt"; "abs";
    "floor"; "ceil"; "fact"; "pow" ].

Definition constant_names : list string := [ "pi"; "e" ].

Definition is_listed (names : list string) (id : string) : bool :=
  existsb (String.eqb id) names.

Definition is_Some_b {A} (x : option A) : bool :=
  match x with
  | Some _ => true
  | None => false
  end.

Definition is_key (vars : gmap string value) (id : string) : bool :=
  match vars !! id with
  | Some _ => true
  | None => false
  end.

(** A tree that uses, at the root or below it, an operator outside the
    tables, a function outside [function_names], a callee that is no
    name, or an identifier that is neither a constant nor a key of
    [vars]. *)
Fixpoint unlisted (vars : gmap string value) (n : ast.node) : bool :=
  match n with
  | ast.Expression body => unlisted vars body
  | ast.BinOp l op r =>
      negb (is_binary_operator op) || unlisted vars l || unlisted vars r
  | ast.UnaryOp op e => negb (is_unary_operator op) || unlisted vars e
  | ast.Call (ast.Name f) args keywords =>
      negb (is_listed function_names f)
      || existsb (unlisted vars) args
      || existsb (fun kw => unlisted vars (snd kw)) keywords
  | ast.Call _ _ _ => true
  | ast.Name id => negb (is_listed constant_names id || is_key vars id)
  | _ => false
  end.

(** A character that the preprocessor rewrites or may rewrite: the
    power sign, the percent sign and the factorial sign. *)
Definition is_sign (c : ascii) : bool :=
  Ascii.eqb c "^" || Ascii.eqb c "%" || Ascii.eqb c bang.

Definition plain_ascii (c : ascii) : bool :=
  (N_of_ascii c <? 128)%N && negb (is_sign c).


Definition no_equals (c : ascii) : bool := negb (Ascii.eqb c "=").

(** The labels of [_press] that do not take a snapshot of the entry. *)
Definition keeps_no_snapshot (label : string) : bool :=
  existsb (String.eqb label) ["="; "MC"; "M+"; "M-"].

(** The texts that undo and redo move along: the undo stack, the text of
    the entry, and the redo stack from its top. *)
Definition timeline (a : CalcApp) : list string :=
  undo_stack a ++ entry a :: rev (redo_stack a).

(** What [_undo] and [_redo] have no line for: the memory, the last
    result, the angle mode and the history. *)
Definition kept (a : CalcApp) : float * float * bool * list string :=
  (memory a, ans a, deg_mode a, hist a).

(** The labels that [_press] has a branch for; any other label is typed
    into the entry. *)
Definition handled_labels : list string :=
  ["C"; "⌫"; "MC"; "MR"; "M+"; "M-"; "="; "+/-"].


(** * Properties *)

#[local] Set Warnings "-inexact-float".

(** ** Lists, strings and the loop of the factorial conversion *)

Lemma append_cons (c : ascii) (s t : string) : String c s +:+ t = String c (s +:+ t).
Proof. reflexivity. Qed.

Lemma append_empty_l (t : string) : EmptyString +:+ t = t.
Proof. reflexivity. Qed.

Lemma append_empty_r (s : string) : s +:+ EmptyString = s.
Proof.
  induction s as [|c s IH]; [reflexivity | now rewrite append_cons, IH].
Qed.

Lemma append_assoc (a b c : string) : (a +:+ b) +:+ c = a +:+ (b +:+ c).
Proof.
  induction a as [|x a IH]; [reflexivity | now rewrite !append_cons, IH].
Qed.

Lemma join_cons (x : string) (l : list string) : join (x :: l) = x +:+ join l.
Proof.
  unfold join. destruct l as [|y l].
  - change (x = x +:+ EmptyString). now rewrite append_empty_r.
  - reflexivity.
Qed.

Lemma join_app (a b : list string) : join (a ++ b) = join a +:+ join b.
Proof.
  induction a as [|x a IH]; [reflexivity|].
  cbn [app]. now rewrite !join_cons, IH, append_assoc.
Qed.

Lemma length_chars (s : string) :
  List.length (list_ascii_of_string s) = String.length s.
Proof. induction s as [|c s IH]; [reflexivity | cbn; now rewrite IH]. Qed.


Lemma pops_app {A} (l out : list A) : pops (List.length l) (out ++ l) = out.
Proof.
  unfold pops. induction l as [|x l IH] using rev_ind; simpl.
  - now rewrite app_nil_r.
  - rewrite length_app, Nat.add_comm. cbn [List.length Nat.add].
    rewrite Nat.iter_succ_r, app_assoc, removelast_last. exact IH.
Qed.

Lemma isdigit_not (c : ascii) (k : ascii) :
  isdigit c = true -> isdigit k = false -> Ascii.eqb c k = false.
Proof.
  intros Hc Hk. destruct (Ascii.eqb_spec c k) as [->|]; congruence.
Qed.

Lemma digit_run_app (run rest : list ascii) :
  forallb digit_or_dot run = true ->
  starts_with digit_or_dot rest = false ->
  digit_run (run ++ rest) = (run, rest).
Proof.
  intros Hrun Hrest. induction run as [|c run IH]; cbn [app digit_run].
  - destruct rest as [|c rest]; [reflexivity|].
    cbn [starts_with] in Hrest. cbn [digit_run]. now rewrite Hrest.
  - cbn [forallb] in Hrun. apply andb_true_iff in Hrun as [Hc Hrun].
    rewrite Hc, (IH Hrun). reflexivity.
Qed.

Lemma rf_loop_nil (fuel : nat) (out : list string) : rf_loop fuel out [] = out.
Proof. destruct fuel; reflexivity. Qed.

(** The number case of one turn of the loop. *)
Lemma rf_step_number (out : list string) (d : ascii) (run rest : list ascii) :
  isdigit d = true ->
  forallb digit_or_dot run = true ->
  rf_step out d (run ++ bang :: rest)
  = (out ++ ["fact(" +:+ string_of_list_ascii (d :: run) +:+ ")"], rest).
Proof.
  intros Hd Hrun. unfold rf_step.
  rewrite (isdigit_not d bang Hd eq_refl), (isdigit_not d rparen Hd eq_refl), Hd.
  change (d :: run ++ bang :: rest) with ((d :: run) ++ bang :: rest).
  rewrite digit_run_app; [| simpl; unfold digit_or_dot at 1; now rewrite Hd | reflexivity].
  rewrite Ascii.eqb_refl.
  replace (List.length (d :: run)) with (List.length (map chr (d :: run)))
    by apply List.length_map.
  now rewrite pops_app.
Qed.



(** ** C1 *)

Lemma digit_run_spec (s run r : list ascii) :
  digit_run s = (run, r) -> s = run ++ r /\ forallb digit_or_dot run = true.
Proof.
  revert run r. induction s as [|c s IH]; intros run r H; cbn [digit_run] in H.
  - now inversion H.
  - destruct (digit_or_dot c) eqn:Hc.
    + destruct (digit_run s) as [run' r'] eqn:Hs. inversion H; subst.
      destruct (IH _ _ eq_refl) as [-> Hrun]. cbn [forallb app].
      now rewrite Hc, Hrun.
    + now inversion H.
Qed.

(** A turn of the loop leaves less input than it found. *)
Lemma rf_step_shrinks (out : list string) (c : ascii) (rest : list ascii)
      (out' : list string) (s' : list ascii) :
  rf_step out c rest = (out', s') -> (List.length s' <= List.length rest)%nat.
Proof.
  intros H. unfold rf_step in H.
  destruct (Ascii.eqb c bang); [inversion H; subst; lia|].
  assert (Hnum : (if isdigit c
                  then let '(run, rest') := digit_run (c :: rest) in
                       let out1 := out ++ map chr run in
                       match rest' with
                       | k :: rest'' =>
                           if Ascii.eqb k bang
                           then (pops (List.length run) out1
                                   ++ ["fact(" +:+ string_of_list_ascii run +:+ ")"], rest'')
                           else (out1, rest')
                       | [] => (out1, rest')
                       end
                  else (out ++ [chr c], rest)) = (out', s') ->
                 (List.length s' <= List.length rest)%nat).
  { clear H. intros H. destruct (isdigit c) eqn:Hd; [| inversion H; subst; lia].
    destruct (digit_run (c :: rest)) as [run r1] eqn:Hrun.
    assert (Hr1 : (List.length r1 <= List.length rest)%nat).
    { cbn [digit_run] in Hrun. unfold digit_or_dot at 1 in Hrun. rewrite Hd in Hrun.
      cbn [orb] in Hrun. destruct (digit_run rest) as [a b] eqn:Hab. inversion Hrun; subst.
      apply digit_run_spec in Hab as [-> _]. rewrite length_app. lia. }
    cbv zeta in H. destruct r1 as [|k r2]; [inversion H; subst; exact Hr1|].
    destruct (Ascii.eqb k bang); inversion H; subst; cbn [List.length] in Hr1 |- *; lia. }
  destruct (Ascii.eqb c rparen); [| now apply Hnum].
  destruct rest as [|k rest']; [now apply Hnum|].
  destruct (Ascii.eqb k bang); [| now apply Hnum].
  inversion H; subst. cbn [List.length]. lia.
Qed.

(** The loop does not depend on its fuel, once there is enough of it. *)
Lemma rf_loop_fuel (f1 : nat) :
  forall (f2 : nat) (out : list string) (s : list ascii),
    (List.length s <= f1)%nat -> (List.length s <= f2)%nat ->
    rf_loop f1 out s = rf_loop f2 out s.
Proof.
  induction f1 as [|f1 IH]; intros f2 out [|c rest] H1 H2;
    rewrite ?rf_loop_nil; try reflexivity; cbn [List.length] in *; try lia.
  destruct f2 as [|f2]; [lia|]. cbn [rf_loop].
  destruct (rf_step out c rest) as [out' s'] eqn:Hstep.
  apply rf_step_shrinks in Hstep. apply IH; lia.
Qed.

Lemma digit_run_before (b r : list ascii) :
  starts_with digit_or_dot r = false ->
  digit_run (b ++ r) = (fst (digit_run b), snd (digit_run b) ++ r).
Proof.
  intros Hr. induction b as [|c b IH]; cbn [app digit_run].
  - destruct r as [|d r]; [reflexivity|]. cbn [starts_with] in Hr.
    cbn [digit_run fst snd app]. now rewrite Hr.
  - destruct (digit_or_dot c); [| reflexivity].
    rewrite IH. now destruct (digit_run b).
Qed.

Lemma plain_char_spec (c : ascii) :
  plain_char c = true ->
  Ascii.eqb c bang = false /\ Ascii.eqb c lparen = false /\ Ascii.eqb c rparen = false.
Proof.
  unfold plain_char. intros H.
  apply andb_true_iff in H as [H H3]. apply andb_true_iff in H as [H1 H2].
  now rewrite negb_true_iff in H1, H2, H3.
Qed.

(** Over a span of plain characters the loop emits each character as a
    chunk of its own. *)
Lemma rf_loop_plain (n : nat) :
  forall (body : list ascii) (out : list string) (rest : list ascii) (fuel : nat),
    (List.length body <= n)%nat ->
    forallb plain_char body = true ->
    (List.length (body ++ rparen :: rest) <= fuel)%nat ->
    rf_loop fuel out (body ++ rparen :: rest)
    = rf_loop fuel (out ++ map chr body) (rparen :: rest).
Proof.
  induction n as [|n IH]; intros [|c b] out rest fuel Hn Hplain Hfuel;
    cbn [List.length] in Hn; try lia;
    try (cbn [app map]; now rewrite app_nil_r).
  cbn [forallb] in Hplain. apply andb_true_iff in Hplain as [Hc Hb].
  destruct (plain_char_spec _ Hc) as (Hc1 & _ & Hc3).
  cbn [app List.length] in Hfuel. destruct fuel as [|fuel]; [lia|].
  cbn [app].
  match goal with |- _ = ?rhs => set (R := rhs) end.
  cbn [rf_loop]. unfold rf_step. rewrite Hc1, Hc3.
  destruct (isdigit c) eqn:Hd; subst R.
  - cbn [digit_run]. unfold digit_or_dot at 1. rewrite Hd. cbn [orb].
    rewrite digit_run_before by reflexivity.
    destruct (digit_run b) as [b1 b2] eqn:Hrun. cbn [fst snd].
    apply digit_run_spec in Hrun as [-> _].
    rewrite forallb_app in Hb. apply andb_true_iff in Hb as [_ Hb2].
    assert (Hnext : rf_loop fuel (out ++ map chr (c :: b1)) (b2 ++ rparen :: rest)
                    = rf_loop (S fuel) (out ++ map chr (c :: b1 ++ b2)) (rparen :: rest)).
    { rewrite IH; [| rewrite length_app in Hn; lia | exact Hb2
                   | rewrite !length_app in Hfuel; rewrite !length_app;
                     cbn [List.length] in *; lia].
      rewrite <- app_assoc, <- map_app. cbn [app].
      apply rf_loop_fuel; rewrite !length_app in Hfuel; cbn [List.length] in *; lia. }
    destruct b2 as [|k b2]; cbn [app].
    + change (Ascii.eqb rparen bang) with false. cbv iota. exact Hnext.
    + cbn [forallb] in Hb2. apply andb_true_iff in Hb2 as [Hk _].
      destruct (plain_char_spec _ Hk) as (-> & _ & _). exact Hnext.
  - rewrite IH; [| lia | exact Hb | exact (le_S_n _ _ Hfuel)].
    rewrite <- app_assoc. cbn [app map].
    apply rf_loop_fuel; rewrite ?length_app in *; cbn [List.length] in *; lia.
Qed.

Lemma scan_back_app (l e : list string) (n : nat) :
  forall depth : Z,
    (n <= List.length l)%nat -> scan_back (l ++ e) n depth = scan_back l n depth.
Proof.
  induction n as [|n IH]; intros depth Hn; [reflexivity|].
  cbn [scan_back]. rewrite app_nth1 by lia. rewrite !IH by lia. reflexivity.
Qed.

Lemma chr_eqb (c k : ascii) :
  String.eqb (chr c) (String k EmptyString) = Ascii.eqb c k.
Proof. unfold chr. cbn [String.eqb]. now destruct (Ascii.eqb c k). Qed.

(** The scan back for the parenthesis that matches goes over plain
    chunks without a change of depth. *)
Lemma scan_back_plain (pre : list string) (body : list ascii) (depth : Z) :
  forallb plain_char body = true ->
  scan_back (pre ++ map chr body) (List.length pre + List.length body) depth
  = scan_back (pre ++ map chr body) (List.length pre) depth.
Proof.
  intros H. induction body as [|c b IH] using rev_ind.
  - now rewrite Nat.add_0_r.
  - rewrite forallb_app in H. apply andb_true_iff in H as [Hb Hc].
    cbn [forallb] in Hc. apply andb_true_iff in Hc as [Hc _].
    destruct (plain_char_spec _ Hc) as (_ & Hc2 & Hc3).
    rewrite length_app, Nat.add_assoc, Nat.add_comm. cbn [List.length Nat.add scan_back].
    rewrite map_app, app_assoc. cbn [map].
    replace (List.length pre + List.length b)%nat
      with (List.length (pre ++ map chr b)) by (rewrite length_app, length_map; reflexivity).
    rewrite nth_middle, !chr_eqb. fold lparen rparen. rewrite Hc2, Hc3.
    rewrite (scan_back_app (pre ++ map chr b) [chr c]) by lia.
    rewrite (scan_back_app (pre ++ map chr b) [chr c]) by (rewrite length_app; lia).
    rewrite length_app, length_map. now apply IH.
Qed.

Lemma join_chunks (body : list ascii) :
  join (map chr body) = string_of_list_ascii body.
Proof.
  induction body as [|c b IH]; [reflexivity|].
  cbn [map]. now rewrite join_cons, IH.
Qed.

(** The conversion on a span of plain characters between parentheses,
    with ["!"] after it. *)
Lemma replace_factorial_paren (body : list ascii) :
  forallb plain_char body = true ->
  _replace_factorial (string_of_list_ascii (lparen :: body ++ [rparen; bang]))
  = "fact((" +:+ string_of_list_ascii body +:+ ")".
Proof.
  intros H. unfold _replace_factorial.
  rewrite list_ascii_of_string_of_list_ascii.
  rewrite <- (length_chars (string_of_list_ascii _)), list_ascii_of_string_of_list_ascii.
  cbn [List.length rf_loop]. change (rf_step [] lparen (body ++ [rparen; bang]))
    with ([chr lparen], body ++ [rparen; bang]).
  cbv beta iota.
  rewrite rf_loop_plain with (n := List.length body); [| lia | exact H | reflexivity].
  rewrite length_app. cbn [List.length]. rewrite Nat.add_comm. cbn [Nat.add rf_loop].
  unfold rf_step. change (Ascii.eqb rparen bang) with false.
  rewrite !Ascii.eqb_refl. cbv iota beta.
  rewrite length_app, length_map.
  rewrite (scan_back_plain [chr lparen] body 1 H).
  change (scan_back ([chr lparen] ++ map chr body) (List.length [chr lparen]) 1) with 0.
  unfold list_insert. cbn [Z.ltb Z.compare]. rewrite Z.min_l by lia.
  change (Z.to_nat 0) with O. rewrite take_0, drop_0. cbn [app].
  rewrite !join_cons, join_app, join_chunks.
  reflexivity.
Qed.

(** C1 (the code departs from it): a [")"] that ["!"] follows is meant to
    close a span that is wrapped as [fact(...)], the depth of nesting
    counted.  The conversion finds the ["("] that matches, puts ["fact("]
    before it and appends one [")"]; the [")"] of the input is not
    emitted, so the parenthesis that closes [fact(] is missing: a span of
    plain characters between parentheses goes from [(span)!] to
    [fact((span)], ["(2+(1*3))!"] becomes ["fact((2+(1*3))"] and not
    ["fact((2+(1*3)))"], and ["(2+3)!"] does not evaluate to 120 but fails
    with "Syntax error.". *)
Theorem C1_paren_factorial_loses_paren (span : list ascii) :
  forallb plain_char span = true ->
  _replace_factorial (string_of_list_ascii (lparen :: span ++ [rparen; bang]))
  = "fact((" +:+ string_of_list_ascii span +:+ ")"
  /\ preprocess "(2+(1*3))!" = "fact((2+(1*3))"
  /\ preprocess "(2+3)!" = "fact((2+3)"
  /\ forall (host : Host) (last : float) (degrees : bool),
       evaluate "(2+3)!" last degrees = Raise (ValueError "Syntax error.").
Proof.
  intros H. split; [now apply replace_factorial_paren|].
  split; [| split]; [vm_compute; reflexivity ..|].
  intros. vm_compute. reflexivity.
Qed.

Lemma C1_paren_factorial_loses_paren_witness :
  forallb plain_char (list_ascii_of_string "2+3") = true
  /\ _replace_factorial "(2+3)!" = "fact((2+3)".
Proof.
  split; [reflexivity|].
  exact (proj1 (C1_paren_factorial_loses_paren (list_ascii_of_string "2+3") eq_refl)).
Defined.

(** ** C2 *)

(** *** A ["!"] that no ["="] follows is no token *)














(** *** The conversion keeps a ["!"] that it does not take for a factorial *)










(** *** The conversion brings in no quote, comment or NUL *)





(** *** The claim *)






(** ** C3 *)

(** C3, as the claim states it, fails: [math.sqrt] is the real square
    root, which raises on a negative argument and returns no [complex]. *)
Lemma C3_sqrt_of_minus_one :
  (forall (host : Host) (last : float) (degrees : bool),
     evaluate "sqrt(-1)" last degrees = Raise (ValueError "math domain error"))
  /\ ValueError "math domain error" <> ValueError "Complex results not supported.".
Proof. split; [intros; vm_compute; reflexivity | discriminate]. Qed.

(** C3 (amended): [evaluate("sqrt(-1)")] fails with the domain error of
    the host; and whenever the evaluator returns a [complex] for the text
    of the entry, [_evaluate_silent] fails with "Complex results not
    supported." and returns no value. *)
Theorem C3_complex_result_rejected
        (host : Host) (self : CalcApp) (re im : float) :
  strip (entry self) <> EmptyString ->
  eval (SafeEvaluator_init (Some {[ "Ans" := VFloat (ans self) ]}) (deg_mode self))
       (strip (entry self)) = Ok (VComplex re im) ->
  _evaluate_silent self = (Raise (ValueError "Complex results not supported."), self)
  /\ forall (last : float) (degrees : bool),
       evaluate "sqrt(-1)" last degrees = Raise (ValueError "math domain error").
Proof.
  intros Hne Hev. split; [| intros; vm_compute; reflexivity].
  unfold _evaluate_silent, mbind_method, get, lift, raise.
  apply String.eqb_neq in Hne. rewrite Hne, Hev. reflexivity.
Qed.

Lemma C3_complex_result_rejected_witness :
  strip "1j" <> EmptyString
  /\ (forall (host : Host) (last : float) (degrees : bool),
        eval (SafeEvaluator_init (Some {[ "Ans" := VFloat last ]}) degrees) (strip "1j")
        = Ok (VComplex 0 1))
  /\ (forall (host : Host) (last : float) (degrees : bool),
        evaluate "1j" last degrees
        = Raise (ValueError "Complex results not supported.")).
Proof.
  assert (Hne : strip "1j" <> EmptyString) by (vm_compute; discriminate).
  assert (Hev : forall (host : Host) (last : float) (degrees : bool),
             eval (SafeEvaluator_init (Some {[ "Ans" := VFloat last ]}) degrees)
                  (strip "1j") = Ok (VComplex 0 1))
    by (intros; vm_compute; reflexivity).
  split; [exact Hne | split; [exact Hev |]].
  intros host last degrees. unfold evaluate.
  exact (f_equal fst
           (proj1 (C3_complex_result_rejected host
                     {| entry := "1j"; deg_mode := degrees; memory := 0;
                        ans := last; undo_stack := []; redo_stack := [];
                        hist := [] |} 0%float 1%float Hne (Hev host last degrees)))).
Defined.

(** ** C4 *)





(** ** C5 *)

(** C5, as the claim states it, fails for a run that a point begins: the
    point is passed on and only the digits are wrapped. *)
Lemma C5_run_from_point :
  preprocess ".5!" = ".fact(5)" /\ preprocess ".5!" <> "fact(.5)".
Proof. split; [vm_compute; reflexivity | vm_compute; discriminate]. Qed.

(** C5 (amended): a run that begins with a digit and goes on over digits
    and decimal points, with ["!"] right after it, is rewritten to
    [fact(<run>)]: by the turn of the loop that stands at its first digit,
    whatever was emitted before and whatever follows, and so for the whole
    text when the text is the run and the ["!"]; [evaluate("5!")] is 120
    and [evaluate("0!")] is 1. *)
Theorem C5_digit_run_factorial (d : ascii) (run : list ascii) :
  isdigit d = true ->
  forallb digit_or_dot run = true ->
  (forall (out : list string) (rest : list ascii),
     rf_step out d (run ++ bang :: rest)
     = (out ++ ["fact(" +:+ string_of_list_ascii (d :: run) +:+ ")"], rest))
  /\ _replace_factorial (string_of_list_ascii (d :: run ++ [bang]))
     = "fact(" +:+ string_of_list_ascii (d :: run) +:+ ")"
  /\ forall (host : Host) (last : float) (degrees : bool),
       evaluate "5!" last degrees = Ok 120%float
       /\ evaluate "0!" last degrees = Ok 1%float.
Proof.
  intros Hd Hrun. split; [| split].
  - intros. now apply rf_step_number.
  - unfold _replace_factorial.
    rewrite list_ascii_of_string_of_list_ascii. simpl.
    rewrite (rf_step_number [] d run [] Hd Hrun). simpl.
    now rewrite rf_loop_nil.
  - intros. split; vm_compute; reflexivity.
Qed.

Lemma C5_digit_run_factorial_witness :
  isdigit "1" = true
  /\ forallb digit_or_dot (list_ascii_of_string "2.5") = true
  /\ _replace_factorial "12.5!" = "fact(12.5)".
Proof.
  split; [reflexivity | split; [reflexivity |]].
  exact (proj1 (proj2 (C5_digit_run_factorial "1" (list_ascii_of_string "2.5")
                         eq_refl eq_refl))).
Defined.

(** ** C6 *)

(** [replace] with a pattern of one character; with a pattern of two, at
    a character that is not its first, at the pattern, and at its first
    character when the second does not follow. *)
Lemma replace_cons_1 (p : ascii) (new : string) (c : ascii) (s : string) :
  replace (String p EmptyString) new (String c s)
  = (if Ascii.eqb p c then new else chr c) +:+ replace (String p EmptyString) new s.
Proof.
  unfold replace. cbn [replace_from startswith String.length Nat.sub].
  destruct (Ascii.eqb p c); cbn [andb]; [|reflexivity].
  destruct s; reflexivity.
Qed.

Lemma replace_cons_2 (a b : ascii) (new : string) (c : ascii) (s : string) :
  Ascii.eqb a c = false ->
  replace (String a (String b EmptyString)) new (String c s)
  = String c (replace (String a (String b EmptyString)) new s).
Proof.
  intros H. unfold replace. cbn [replace_from startswith]. now rewrite H.
Qed.

Lemma replace_glyph (a b : ascii) (new : string) (s : string) :
  replace (String a (String b EmptyString)) new (String a (String b s))
  = new +:+ replace (String a (String b EmptyString)) new s.
Proof.
  unfold replace.
  cbn [replace_from startswith String.length Nat.sub].
  rewrite !Ascii.eqb_refl. cbn [andb]. destruct s; reflexivity.
Qed.

Lemma replace_near_glyph (a b : ascii) (new : string) (d : ascii) (s : string) :
  Ascii.eqb b d = false -> Ascii.eqb a d = false ->
  replace (String a (String b EmptyString)) new (String a (String d s))
  = String a (String d (replace (String a (String b EmptyString)) new s)).
Proof.
  intros Hb Ha. unfold replace. cbn [replace_from startswith].
  now rewrite Ascii.eqb_refl, Hb, Ha.
Qed.

Lemma not_lead_byte (c : ascii) :
  (N_of_ascii c <? 128)%N = true -> Ascii.eqb "195" c = false.
Proof.
  intros H. destruct (Ascii.eqb_spec "195"%char c) as [<-|]; [discriminate | reflexivity].
Qed.

Lemma substitute_cons_ascii (c : ascii) (s : string) :
  (N_of_ascii c <? 128)%N = true ->
  substitute (String c s) = substitute_symbol (Char c) +:+ substitute s.
Proof.
  intros H. unfold substitute, substitute_symbol.
  rewrite !replace_cons_2 by now apply not_lead_byte.
  change "^" with (String "^" EmptyString) at 1.
  rewrite replace_cons_1, (Ascii.eqb_sym c "^").
  destruct (Ascii.eqb_spec "^"%char c) as [<-|Hc].
  - rewrite !append_cons, append_empty_l.
    change "%" with (String "%" EmptyString) at 1.
    now rewrite !replace_cons_1.
  - unfold chr. rewrite !append_cons, append_empty_l.
    change "%" with (String "%" EmptyString) at 1.
    rewrite replace_cons_1, (Ascii.eqb_sym c "%"). reflexivity.
Qed.

Lemma substitute_times (s : string) :
  substitute ("×" +:+ s) = "*" +:+ substitute s.
Proof.
  unfold substitute. rewrite !append_cons, append_empty_l.
  rewrite replace_glyph. rewrite !append_cons, append_empty_l.
  rewrite replace_cons_2 by reflexivity.
  now rewrite !replace_cons_1.
Qed.

Lemma substitute_divide (s : string) :
  substitute ("÷" +:+ s) = "/" +:+ substitute s.
Proof.
  unfold substitute. rewrite !append_cons, append_empty_l.
  rewrite replace_near_glyph by reflexivity.
  rewrite replace_glyph. rewrite !append_cons, append_empty_l.
  now rewrite !replace_cons_1.
Qed.

(** C6: the glyph and percent step of the preprocessor is a substitution
    character for character: on a text of ASCII characters and the two
    glyphs it puts [*] for the times sign, [/] for the division sign,
    [**] for the caret and [/100] for every percent sign, leaves every
    other character as it is, and looks at nothing around a character.  So
    [evaluate("2^10")] is 1024 and [evaluate("200 + 10%")] is
    [200 + 10/100], which is 200.1 and not 220. *)
Theorem C6_substitution_is_textual (text : list symbol) :
  forallb is_ascii text = true ->
  substitute (encode_text text) = join (map substitute_symbol text)
  /\ (forall (host : Host) (last : float) (degrees : bool),
        evaluate "2^10" last degrees = Ok 1024%float
        /\ evaluate "200 + 10%" last degrees = Ok 200.1%float)
  /\ preprocess "200 + 10%" = "200 + 10/100".
Proof.
  intros H. split; [| split; [intros; split; vm_compute; reflexivity
                             | vm_compute; reflexivity]].
  induction text as [|x text IH]; [reflexivity|].
  cbn [forallb] in H. apply andb_true_iff in H as [Hx H].
  unfold encode_text in *. cbn [map]. rewrite !join_cons, <- (IH H).
  destruct x as [c| |]; cbn [encode_symbol].
  - now apply substitute_cons_ascii.
  - apply substitute_times.
  - apply substitute_divide.
Qed.

Lemma C6_substitution_is_textual_witness :
  forallb is_ascii [Char "2"; Times; Char "3"; Divide; Char "4"; Char "^";
                    Char "2"; Char "%"] = true
  /\ substitute "2×3÷4^2%" = "2*3/4**2/100".
Proof.
  split; [reflexivity|].
  exact (proj1 (C6_substitution_is_textual
                  [Char "2"; Times; Char "3"; Divide; Char "4"; Char "^";
                   Char "2"; Char "%"] eq_refl)).
Defined.

(** ** C7 *)

(** C7: an identifier is looked up in the constants first and in the
    variables second, and is an error when neither has it.  So [pi] is
    the constant whatever the variables bind [pi] to, in the tree walk
    and from the text; and a name that no table has is reported by its
    name. *)
Theorem C7_constants_before_variables
        (host : Host) (vars : gmap string value) (deg_mode : bool) :
  (forall id : string,
     visit vars deg_mode (ast.Name id)
     = match consts !! id with
       | Some c => Ok c
       | None =>
           match vars !! id with
           | Some v => Ok v
           | None => Raise (ValueError ("Unknown identifier: " +:+ id))
           end
       end)
  /\ (forall v : value,
        visit (<["pi" := v]> vars) deg_mode (ast.Name "pi") = Ok (VFloat math_pi)
        /\ eval (SafeEvaluator_init (Some (<["pi" := v]> vars)) deg_mode) "pi"
           = Ok (VFloat math_pi))
  /\ (forall v : value,
        eval (SafeEvaluator_init (Some {[ "Ans" := v ]}) deg_mode) "Ans" = Ok v)
  /\ eval (SafeEvaluator_init (Some ∅) deg_mode) "bar"
     = Raise (ValueError "Unknown identifier: bar").
Proof.
  split; [| split; [| split]].
  - intros id. reflexivity.
  - intros v. split; vm_compute; reflexivity.
  - intros v. vm_compute. reflexivity.
  - vm_compute. reflexivity.
Qed.

(** ** C8 *)






(** ** C9 *)

(** C9: [_evaluate_silent] leaves the state of the application as it
    found it, so a second call on the same entry, last result and angle
    mode returns what the first returned; and what it returns depends on
    these three alone, not on the memory, the history or the undo and
    redo stacks. *)
Theorem C9_evaluation_is_repeatable (host : Host) (self : CalcApp) :
  snd (_evaluate_silent self) = self
  /\ _evaluate_silent (snd (_evaluate_silent self)) = _evaluate_silent self
  /\ fst (_evaluate_silent self)
     = evaluate (entry self) (ans self) (deg_mode self).
Proof.
  assert (Hstate : forall a : CalcApp, snd (_evaluate_silent a) = a).
  { intros a. unfold _evaluate_silent, mbind_method, get, lift, ret, raise.
    destruct (String.eqb _ _); [reflexivity|].
    destruct (eval _ _) as [v|e]; [|reflexivity].
    destruct (is_complex v); [reflexivity|].
    destruct (to_float v); reflexivity. }
  split; [apply Hstate | split].
  - now rewrite Hstate.
  - unfold evaluate, _evaluate_silent, mbind_method, get, lift, ret, raise. simpl.
    destruct (String.eqb _ _); [reflexivity|].
    destruct (eval _ _) as [v|e]; [|reflexivity].
    destruct (is_complex v); [reflexivity|].
    destruct (to_float v); reflexivity.
Qed.

(** ** C10 *)






(** * Properties of the window and of the tables *)

(** ** Characters, indices and the entry *)

Lemma len_pos (c : ascii) (s : string) : (1 <= len (String c s))%nat.
Proof.
  revert c. induction s as [|d s IH]; intros c.
  - cbn. lia.
  - change (len (String c (String d s)))
      with (if continuation d then len (String d s) else S (len (String d s))).
    destruct (continuation d); [apply IH | lia].
Qed.

Lemma len_0 (s : string) : len s = O -> s = EmptyString.
Proof.
  destruct s as [|c s]; [reflexivity|]. pose proof (len_pos c s). lia.
Qed.

Lemma split_chars_0 (s : string) : split_chars 0 s = (EmptyString, s).
Proof. now destruct s. Qed.

Lemma split_chars_all (s : string) :
  forall n : nat, (len s <= n)%nat -> split_chars n s = (s, EmptyString).
Proof.
  induction s as [|c s IH]; intros n H; [now destruct n|].
  destruct n as [|n]; [pose proof (len_pos c s); lia|].
  cbn [split_chars len] in *. destruct (continues s).
  - now rewrite (IH (S n)) by lia.
  - now rewrite (IH n) by lia.
Qed.

Lemma set_entry_same (a : CalcApp) : set_entry (entry a) a = a.
Proof. now destruct a. Qed.

Lemma entry_delete_fields (first last : nat) (w : Window) :
  fields (entry_delete first last w)
  = set_entry (entry (fields (entry_delete first last w))) (fields w)
  /\ ans_lbl (entry_delete first last w) = ans_lbl w
  /\ info (entry_delete first last w) = info w
  /\ shown (entry_delete first last w) = shown w.
Proof.
  unfold entry_delete. destruct (Nat.ltb _ _).
  - destruct (split_chars first _) as [a r]. destruct (split_chars _ r) as [x b].
    repeat split; reflexivity.
  - now rewrite set_entry_same.
Qed.

Lemma entry_insert_fields (index : nat) (text : string) (w : Window) :
  fields (entry_insert index text w)
  = set_entry (entry (fields (entry_insert index text w))) (fields w)
  /\ ans_lbl (entry_insert index text w) = ans_lbl w
  /\ info (entry_insert index text w) = info w
  /\ shown (entry_insert index text w) = shown w.
Proof.
  unfold entry_insert. destruct (split_chars _ _) as [a b].
  repeat split; reflexivity.
Qed.

(** What [delete(0, "end")] and [insert(0, text)] leave. *)
Lemma entry_clear (w : Window) :
  fields (entry_delete 0 (entry_end w) w) = set_entry EmptyString (fields w).
Proof.
  unfold entry_delete, entry_end. rewrite Nat.min_id.
  destruct (Nat.ltb 0 (len (entry (fields w)))) eqn:E.
  - rewrite split_chars_0, Nat.sub_0_r, split_chars_all by lia. reflexivity.
  - apply Nat.ltb_ge in E. rewrite <- (set_entry_same (fields w)) at 1.
    f_equal. apply len_0. lia.
Qed.

Lemma entry_replace (text : string) (w : Window) :
  fields (entry_insert 0 text (entry_delete 0 (entry_end w) w))
  = set_entry text (fields w).
Proof.
  unfold entry_insert. rewrite entry_clear. cbn.
  now rewrite entry_clear, append_empty_l, append_empty_r.
Qed.

Lemma entry_replace_rest (text : string) (w : Window) :
  ans_lbl (entry_insert 0 text (entry_delete 0 (entry_end w) w)) = ans_lbl w
  /\ info (entry_insert 0 text (entry_delete 0 (entry_end w) w)) = info w
  /\ shown (entry_insert 0 text (entry_delete 0 (entry_end w) w)) = shown w.
Proof.
  destruct (entry_insert_fields 0 text (entry_delete 0 (entry_end w) w))
    as (_ & -> & -> & ->).
  destruct (entry_delete_fields 0 (entry_end w) w) as (_ & -> & -> & ->).
  repeat split; reflexivity.
Qed.

Lemma entry_insert_frame (index : nat) (text : string) (w : Window) :
  exists t : string, fields (entry_insert index text w) = set_entry t (fields w).
Proof. eexists. apply entry_insert_fields. Qed.

Lemma entry_delete_frame (first last : nat) (w : Window) :
  exists t : string, fields (entry_delete first last w) = set_entry t (fields w).
Proof. eexists. apply entry_delete_fields. Qed.

(** ** Undo and redo *)

Lemma undo_spec (w : Window) (u : list string) (p : string) :
  undo_stack (fields w) = u ++ [p] ->
  fields (_undo w)
  = set_entry p
      (set_undo_stack u
         (set_redo_stack (redo_stack (fields w) ++ [entry (fields w)]) (fields w))).
Proof.
  intros H. unfold _undo. destruct (undo_stack (fields w)) eqn:E.
  - now destruct u.
  - cbv zeta. rewrite entry_replace. cbn. rewrite E, H.
    now rewrite last_last, removelast_last.
Qed.

Lemma redo_spec (w : Window) (r : list string) (n : string) :
  redo_stack (fields w) = r ++ [n] ->
  fields (_redo w)
  = set_entry n
      (set_redo_stack r
         (set_undo_stack (undo_stack (fields w) ++ [entry (fields w)]) (fields w))).
Proof.
  intros H. unfold _redo. destruct (redo_stack (fields w)) eqn:E.
  - now destruct r.
  - cbv zeta. rewrite entry_replace. cbn. rewrite E, H.
    now rewrite last_last, removelast_last.
Qed.

Lemma stack_top {A} (l : list A) : l <> [] -> exists u p, l = u ++ [p].
Proof.
  intros H. destruct (exists_last H) as (u & p & ->). now exists u, p.
Qed.

Lemma undo_cases (w : Window) :
  (undo_stack (fields w) = [] /\ _undo w = w)
  \/ exists (u : list string) (p : string),
       undo_stack (fields w) = u ++ [p]
       /\ fields (_undo w)
          = set_entry p
              (set_undo_stack u
                 (set_redo_stack (redo_stack (fields w) ++ [entry (fields w)])
                    (fields w))).
Proof.
  destruct (decide (undo_stack (fields w) = [])) as [U|U].
  - left. split; [exact U|]. unfold _undo. now rewrite U.
  - right. destruct (stack_top _ U) as (u & p & Eu). exists u, p.
    split; [exact Eu | now apply undo_spec].
Qed.

Lemma redo_cases (w : Window) :
  (redo_stack (fields w) = [] /\ _redo w = w)
  \/ exists (r : list string) (n : string),
       redo_stack (fields w) = r ++ [n]
       /\ fields (_redo w)
          = set_entry n
              (set_redo_stack r
                 (set_undo_stack (undo_stack (fields w) ++ [entry (fields w)])
                    (fields w))).
Proof.
  destruct (decide (redo_stack (fields w) = [])) as [R|R].
  - left. split; [exact R|]. unfold _redo. now rewrite R.
  - right. destruct (stack_top _ R) as (r & n & Er). exists r, n.
    split; [exact Er | now apply redo_spec].
Qed.

(** X1: undo and redo move along one line of texts.  The undo stack,
    the text of the entry and the redo stack read from its top make up
    one list, which neither [_undo] nor [_redo] changes: [_undo] steps
    one text back in it and [_redo] one text forward, and each does
    nothing at its end of the list.  No text is lost or made up, and the
    memory, the last result, the angle mode and the history stay. *)
Theorem X1_undo_redo_timeline (w : Window) :
  timeline (fields (_undo w)) = timeline (fields w)
  /\ timeline (fields (_redo w)) = timeline (fields w)
  /\ List.length (undo_stack (fields (_undo w)))
     = Nat.pred (List.length (undo_stack (fields w)))
  /\ List.length (redo_stack (fields (_redo w)))
     = Nat.pred (List.length (redo_stack (fields w)))
  /\ kept (fields (_undo w)) = kept (fields w)
  /\ kept (fields (_redo w)) = kept (fields w).
Proof.
  destruct (undo_cases w) as [[U ->] | (u & p & Eu & ->)];
    destruct (redo_cases w) as [[R ->] | (r & n & Er & ->)].
  all: unfold timeline, kept; cbn; rewrite ?Eu, ?Er, ?U, ?R.
  all: rewrite ?rev_app_distr, ?length_app, <- ?app_assoc; cbn.
  all: repeat split; try reflexivity; lia.
Qed.

(** X2: redo takes back an undo.  When there is a text to go back to,
    [_undo] followed by [_redo] leaves every field as it was: the text of
    the entry, both stacks, the memory, the last result and the history;
    and [_undo] takes back that [_redo] in turn. *)
Theorem X2_redo_takes_back_undo (w : Window) :
  undo_stack (fields w) <> [] ->
  fields (_redo (_undo w)) = fields w
  /\ fields (_undo (_redo (_undo w))) = fields (_undo w).
Proof.
  intros U. destruct (stack_top _ U) as (u & p & Eu).
  pose proof (undo_spec w u p Eu) as H1.
  assert (H2 : fields (_redo (_undo w)) = fields w).
  { rewrite (redo_spec (_undo w) (redo_stack (fields w)) (entry (fields w)))
      by now rewrite H1.
    rewrite H1. cbn. rewrite <- Eu. now destruct (fields w). }
  split; [exact H2|].
  rewrite (undo_spec (_redo (_undo w)) u p) by now rewrite H2.
  now rewrite H2, H1.
Qed.

Lemma X2_redo_takes_back_undo_witness :
  let w : Window := on_fields (set_undo_stack ["1+"]) (on_fields (set_entry "1+2") CalcApp_init) in
  undo_stack (fields w) <> []
  /\ entry (fields (_undo w)) = "1+"
  /\ fields (_redo (_undo w)) = fields w.
Proof.
  cbv zeta. split; [discriminate|]. split; [reflexivity|].
  apply X2_redo_takes_back_undo. discriminate.
Defined.


(** ** The evaluation of the entry *)

Lemma evaluate_silent_state {host : Host} (a : CalcApp) : snd (_evaluate_silent a) = a.
Proof.
  unfold _evaluate_silent, mbind_method, get, lift, ret, raise.
  destruct (String.eqb _ _); [reflexivity|].
  destruct (eval _ _) as [v|e]; [|reflexivity].
  destruct (is_complex v); [reflexivity|].
  destruct (to_float v); reflexivity.
Qed.

Lemma evaluate_silent_pair {host : Host} (a : CalcApp) :
  _evaluate_silent a = (fst (_evaluate_silent a), a).
Proof.
  rewrite <- (evaluate_silent_state a) at 3. apply surjective_pairing.
Qed.

(** [_do_equals] by cases. *)
Lemma do_equals_blank {host : Host} {display : Display} (w : Window) :
  strip (entry (fields w)) = EmptyString -> _do_equals w = w.
Proof. intros H. unfold _do_equals. now rewrite H. Qed.

Lemma do_equals_raise {host : Host} {display : Display} (w : Window) (e : exn) :
  strip (entry (fields w)) <> EmptyString ->
  fst (_evaluate_silent (fields w)) = Raise e ->
  _do_equals w = showerror "Error" e w.
Proof.
  intros Hs He. apply String.eqb_neq in Hs. unfold _do_equals.
  rewrite Hs, evaluate_silent_pair, He. now destruct w.
Qed.

Lemma do_equals_ok {host : Host} {display : Display} (w : Window) (val : float) :
  strip (entry (fields w)) <> EmptyString ->
  fst (_evaluate_silent (fields w)) = Ok val ->
  let w1 := ans_lbl_config ("Ans = " +:+ _fmt val)
              (on_fields (set_ans val) w) in
  let w2 := _append_history (strip (entry (fields w))) val w1 in
  _do_equals w = entry_insert 0 (_fmt val) (entry_delete 0 (entry_end w2) w2).
Proof.
  intros Hs He. apply String.eqb_neq in Hs. unfold _do_equals.
  rewrite Hs, evaluate_silent_pair, He. reflexivity.
Qed.

(** [_append_history]: the line goes first, and the last line goes when
    there would be more than 200. *)
Lemma append_history_fields {display : Display} (expr : string) (val : float) (w : Window) :
  let h := (expr +:+ " = " +:+ _fmt val) :: hist (fields w) in
  _append_history expr val w
  = on_fields (set_hist (if Nat.ltb 200 (List.length h) then removelast h else h)) w.
Proof.
  cbv zeta. unfold _append_history.
  change (List.length (hist (fields (on_fields _ w))))
    with (List.length ((expr +:+ " = " +:+ _fmt val) :: hist (fields w))).
  destruct (Nat.ltb 200 _); now destruct w as [[] ? ? ? ?].
Qed.

Lemma do_equals_frame {host : Host} {display : Display} (w : Window) :
  deg_mode (fields (_do_equals w)) = deg_mode (fields w)
  /\ memory (fields (_do_equals w)) = memory (fields w)
  /\ redo_stack (fields (_do_equals w)) = redo_stack (fields w)
  /\ undo_stack (fields (_do_equals w)) = undo_stack (fields w).
Proof.
  destruct (string_dec (strip (entry (fields w))) EmptyString) as [Hs|Hs].
  - now rewrite do_equals_blank.
  - destruct (fst (_evaluate_silent (fields w))) as [val|e] eqn:He.
    + rewrite (do_equals_ok w val Hs He). cbv zeta. rewrite entry_replace.
      now rewrite append_history_fields.
    + now rewrite (do_equals_raise w e Hs He).
Qed.

Lemma do_equals_undo_stack {host : Host} {display : Display} (w : Window) :
  undo_stack (fields (_do_equals w)) = undo_stack (fields w).
Proof. apply do_equals_frame. Qed.

(** ** The keys *)

(** A label that [_press] has no branch for is typed at the cursor. *)
Lemma press_token {host : Host} {display : Display} (label : string) (w : Window) :
  is_listed handled_labels label = false ->
  _press label w
  = entry_insert (insert_pos w) (dict_get token_map label label) (_snapshot w).
Proof.
  unfold is_listed, handled_labels. cbn [existsb]. intros H.
  repeat (apply orb_false_iff in H as [? H]).
  unfold _press. cbn [existsb].
  repeat match goal with E : String.eqb label _ = false |- _ => rewrite E; clear E end.
  reflexivity.
Qed.

Lemma label_cases (label : string) :
  In label handled_labels \/ is_listed handled_labels label = false.
Proof.
  unfold is_listed. destruct (existsb _ _) eqn:E; [left | now right].
  apply existsb_exists in E as (k & Hk & E). apply String.eqb_eq in E. now subst.
Qed.

Ltac each_label H :=
  cbn [In handled_labels] in H;
  repeat (destruct H as [<- | H]); [.. | destruct H].

Ltac frames :=
  repeat match goal with
    | |- context [fields (entry_insert 0 ?t (entry_delete 0 (entry_end ?w) ?w))] =>
        rewrite (entry_replace t w)
    | |- context [fields (entry_delete ?a ?b ?w)] =>
        let t := fresh "t" in destruct (entry_delete_frame a b w) as [t ->]
    | |- context [fields (entry_insert ?a ?b ?w)] =>
        let t := fresh "t" in destruct (entry_insert_frame a b w) as [t ->]
    end.

(** [_press] on the labels it has a branch for. *)
Lemma press_C {host : Host} {display : Display} (w : Window) :
  _press "C" w
  = on_fields (set_redo_stack [])
      (entry_delete 0 (entry_end (_snapshot w)) (_snapshot w)).
Proof. reflexivity. Qed.

Lemma press_backspace {host : Host} {display : Display} (w : Window) :
  _press "⌫" w
  = if String.eqb (entry (fields w)) EmptyString then _snapshot w
    else entry_delete (len (entry (fields w)) - 1)
           (entry_end (_snapshot w)) (_snapshot w).
Proof. reflexivity. Qed.

Lemma press_MC {host : Host} {display : Display} (w : Window) :
  _press "MC" w = info_config "Memory cleared." (on_fields (set_memory 0) w).
Proof. reflexivity. Qed.

Lemma press_MR {host : Host} {display : Display} (w : Window) :
  _press "MR" w
  = entry_insert (insert_pos w) (float_str (memory (fields w))) (_snapshot w).
Proof. reflexivity. Qed.

Lemma press_M_plus {host : Host} {display : Display} (w : Window) :
  _press "M+" w
  = match fst (_evaluate_silent (fields w)) with
    | Ok val =>
        info_config ("Memory += " +:+ float_str val)
          (on_fields (set_memory (memory (fields w) + val)) w)
    | Raise e => showerror "Memory Error" e w
    end.
Proof.
  change (_press "M+" w)
    with (match _evaluate_silent (fields w) with
          | (Ok val, self) =>
              info_config ("Memory += " +:+ float_str val)
                (on_fields (fun _ => set_memory (memory self + val) self) w)
          | (Raise e, self) =>
              showerror "Memory Error" e (on_fields (fun _ => self) w)
          end).
  rewrite evaluate_silent_pair. destruct (fst _); now destruct w.
Qed.

Lemma press_M_minus {host : Host} {display : Display} (w : Window) :
  _press "M-" w
  = match fst (_evaluate_silent (fields w)) with
    | Ok val =>
        info_config ("Memory -= " +:+ float_str val)
          (on_fields (set_memory (memory (fields w) - val)) w)
    | Raise e => showerror "Memory Error" e w
    end.
Proof.
  change (_press "M-" w)
    with (match _evaluate_silent (fields w) with
          | (Ok val, self) =>
              info_config ("Memory -= " +:+ float_str val)
                (on_fields (fun _ => set_memory (memory self - val) self) w)
          | (Raise e, self) =>
              showerror "Memory Error" e (on_fields (fun _ => self) w)
          end).
  rewrite evaluate_silent_pair. destruct (fst _); now destruct w.
Qed.

Lemma press_equals {host : Host} {display : Display} (w : Window) : _press "=" w = _do_equals w.
Proof. reflexivity. Qed.

Lemma press_sign {host : Host} {display : Display} (w : Window) :
  _press "+/-" w
  = if String.eqb (strip (entry (fields w))) EmptyString
    then entry_insert (insert_pos w) "-" (_snapshot w)
    else entry_insert 0 ("-(" +:+ strip (entry (fields w)) +:+ ")")
           (entry_delete 0 (entry_end (_snapshot w)) (_snapshot w)).
Proof. reflexivity. Qed.

Ltac press_cases label w H :=
  destruct (label_cases label) as [H|H];
  [ each_label H;
    [ rewrite (press_C w) | rewrite (press_backspace w) | rewrite (press_MC w)
    | rewrite (press_MR w) | rewrite (press_M_plus w) | rewrite (press_M_minus w)
    | rewrite (press_equals w) | rewrite (press_sign w) ]
  | rewrite (press_token label w H) ].

Lemma keeps_no_snapshot_token (label : string) :
  is_listed handled_labels label = false -> keeps_no_snapshot label = false.
Proof.
  unfold is_listed, handled_labels, keeps_no_snapshot. cbn [existsb]. intros H.
  repeat (apply orb_false_iff in H as [? H]).
  repeat match goal with E : String.eqb label _ = false |- _ => rewrite E; clear E end.
  reflexivity.
Qed.

Lemma press_undo_stack {host : Host} {display : Display} (label : string) (w : Window) :
  undo_stack (fields (_press label w))
  = if keeps_no_snapshot label then undo_stack (fields w)
    else undo_stack (fields w) ++ [entry (fields w)].
Proof.
  press_cases label w H.
  all: try rewrite (keeps_no_snapshot_token _ H).
  all: try match goal with |- context [if String.eqb ?a ?b then _ else _] =>
             destruct (String.eqb a b) end.
  all: try match goal with |- context [fst (_evaluate_silent ?a)] =>
             destruct (fst (_evaluate_silent a)) end.
  all: try apply do_equals_undo_stack.
  all: try change (fields (on_fields ?f ?x)) with (f (fields x)).
  all: frames; reflexivity.
Qed.

Lemma insert_key_fields (char : string) (w : Window) :
  exists t : string,
    fields (_insert_key char w)
    = set_entry t (set_undo_stack (undo_stack (fields w) ++ [entry (fields w)]) (fields w)).
Proof.
  unfold _insert_key.
  destruct (entry_insert_frame (insert_pos (_snapshot w)) char (_snapshot w)) as [t ->].
  now exists t.
Qed.

(** X3: undo takes back a key.  Every label of [_press] but ["="],
    ["MC"], ["M+"] and ["M-"] first puts the text of the entry on the undo
    stack, and so does a key of the keyboard that [_insert_key] types;
    [_undo] right after it gives the entry the text it had before and the
    undo stack the texts it had before.  The four other labels put nothing
    on the undo stack, so an evaluation is not undone. *)
Theorem X3_undo_takes_back_a_key (host : Host) (display : Display) (label : string) (w : Window) :
  keeps_no_snapshot label = false ->
  entry (fields (_undo (_press label w))) = entry (fields w)
  /\ undo_stack (fields (_undo (_press label w))) = undo_stack (fields w)
  /\ (forall char : string,
        entry (fields (_undo (_insert_key char w))) = entry (fields w)
        /\ undo_stack (fields (_undo (_insert_key char w))) = undo_stack (fields w))
  /\ (forall other : string,
        undo_stack (fields (_press other w))
        = if keeps_no_snapshot other then undo_stack (fields w)
          else undo_stack (fields w) ++ [entry (fields w)]).
Proof.
  intros H. pose proof (press_undo_stack label w) as E. rewrite H in E.
  rewrite (undo_spec _ _ _ E). cbn. repeat split.
  - destruct (insert_key_fields char w) as [t Ht].
    now rewrite (undo_spec _ (undo_stack (fields w)) (entry (fields w))) by now rewrite Ht.
  - destruct (insert_key_fields char w) as [t Ht].
    now rewrite (undo_spec _ (undo_stack (fields w)) (entry (fields w))) by now rewrite Ht.
  - intros other. apply press_undo_stack.
Qed.

Lemma X3_undo_takes_back_a_key_witness :
  keeps_no_snapshot "sin" = false
  /\ forall (host : Host) (display : Display),
       entry (fields (_press "sin" (on_fields (set_entry "1+") CalcApp_init))) = "sin(1+"
       /\ entry (fields (_undo (_press "sin" (on_fields (set_entry "1+") CalcApp_init))))
          = "1+".
Proof.
  split; [reflexivity|]. intros h d. split; [reflexivity|].
  exact (proj1 (X3_undo_takes_back_a_key h d "sin"
                  (on_fields (set_entry "1+") CalcApp_init) eq_refl)).
Defined.

(** X4: what a key leaves alone.  No label of [_press] changes the angle
    mode.  The memory changes under ["MC"], ["M+"] and ["M-"] only; the
    last result, the history and the label of the last result under ["="]
    only; the redo stack is emptied by ["C"] and is left as it was by
    every other label, so a text undone can be redone after other keys
    were pressed; and an error is shown by ["="], ["M+"] and ["M-"] only. *)
Theorem X4_what_a_key_leaves (host : Host) (display : Display) (label : string) (w : Window) :
  deg_mode (fields (_press label w)) = deg_mode (fields w)
  /\ (memory (fields (_press label w)) = memory (fields w)
      \/ In label ["MC"; "M+"; "M-"])
  /\ (ans (fields (_press label w)) = ans (fields w)
      /\ hist (fields (_press label w)) = hist (fields w)
      /\ ans_lbl (_press label w) = ans_lbl w
      \/ label = "=")
  /\ (redo_stack (fields (_press label w)) = redo_stack (fields w)
      \/ label = "C")
  /\ redo_stack (fields (_press "C" w)) = []
  /\ (shown (_press label w) = shown w \/ In label ["="; "M+"; "M-"]).
Proof.
  destruct (do_equals_frame w) as (Hd & Hm & Hr & Hu).
  split; [| split; [| split; [| split; [| split]]]].
  6: { press_cases label w H.
       all: try match goal with |- context [if String.eqb ?a ?b then _ else _] =>
                  destruct (String.eqb a b) end.
       all: try (right; cbn; tauto).
       all: left.
       all: cbn [shown on_fields info_config].
       all: repeat match goal with
              | |- context [shown (entry_insert ?a ?b ?x)] =>
                  rewrite (proj2 (proj2 (proj2 (entry_insert_fields a b x))))
              | |- context [shown (entry_delete ?a ?b ?x)] =>
                  rewrite (proj2 (proj2 (proj2 (entry_delete_fields a b x))))
              end.
       all: reflexivity. }
  5: { rewrite press_C. change (fields (on_fields ?f ?x)) with (f (fields x)).
       reflexivity. }
  all: press_cases label w H.
  all: try match goal with |- context [if String.eqb ?a ?b then _ else _] =>
             destruct (String.eqb a b) end.
  all: try match goal with |- context [fst (_evaluate_silent ?a)] =>
             destruct (fst (_evaluate_silent a)) end.
  all: try exact Hd.
  all: try (right; cbn; tauto).
  all: try left.
  all: try assumption.
  all: cbn [ans_lbl on_fields info_config showerror].
  all: repeat match goal with
         | |- context [ans_lbl (entry_insert ?a ?b ?x)] =>
             rewrite (proj1 (proj2 (entry_insert_fields a b x)))
         | |- context [ans_lbl (entry_delete ?a ?b ?x)] =>
             rewrite (proj1 (proj2 (entry_delete_fields a b x)))
         end.
  all: try change (fields (on_fields ?f ?x)) with (f (fields x)).
  all: frames; repeat split; reflexivity.
Qed.

(** X5: a label that [_press] has no branch for is typed, and ["Enter"]
    is one of them.  [_press] does with such a label what [_insert_key]
    does with a key of the keyboard, on the text that the dictionary of
    tokens gives for the label.  The test for ["="] reads the label and
    not its token, so the button ["Enter"], whose token is ["="], types an
    equals sign at the cursor: it never does what ["="] does, and the
    button ["mod"] types a percent sign. *)
Theorem X5_unhandled_label_is_typed
        (host : Host) (display : Display) (label : string) (w : Window) :
  is_listed handled_labels label = false ->
  _press label w = _insert_key (dict_get token_map label label) w
  /\ _press label w <> _press "=" w
  /\ is_listed handled_labels "Enter" = false
  /\ dict_get token_map "Enter" "Enter" = "="
  /\ dict_get token_map "mod" "mod" = "%".
Proof.
  intros H. split; [| split; [| repeat split]].
  - now rewrite press_token.
  - intros E. apply (f_equal (fun v => List.length (undo_stack (fields v)))) in E.
    rewrite !press_undo_stack, (keeps_no_snapshot_token _ H) in E.
    change (keeps_no_snapshot "=") with true in E. cbv iota in E.
    rewrite length_app in E. cbn in E. lia.
Qed.

Lemma X5_unhandled_label_is_typed_witness :
  is_listed handled_labels "Enter" = false
  /\ forall (host : Host) (display : Display),
       _press "Enter" (on_fields (set_entry "1+2") (set_insert_pos 3 CalcApp_init))
       = _insert_key "=" (on_fields (set_entry "1+2") (set_insert_pos 3 CalcApp_init))
       /\ entry (fields (_press "Enter"
                           (on_fields (set_entry "1+2") (set_insert_pos 3 CalcApp_init))))
          = "1+2=".
Proof.
  split; [reflexivity|]. intros h d. split; [| reflexivity].
  exact (proj1 (X5_unhandled_label_is_typed h d "Enter"
                  (on_fields (set_entry "1+2") (set_insert_pos 3 CalcApp_init))
                  eq_refl)).
Defined.

(** ** Backspace and the characters of a text *)

Lemma ascii_no_continuation (c : ascii) :
  (N_of_ascii c <? 128)%N = true -> continuation c = false.
Proof.
  intros H. apply N.ltb_lt in H. unfold continuation. cbv zeta.
  apply andb_false_iff. left. apply N.leb_gt. exact H.
Qed.

(** One character in front of a text that starts at a character. *)
Lemma symbol_first (x : symbol) (rest : string) :
  is_ascii x = true -> continues rest = false ->
  continues (encode_symbol x +:+ rest) = false
  /\ len (encode_symbol x +:+ rest) = S (len rest)
  /\ forall n : nat,
       split_chars (S n) (encode_symbol x +:+ rest)
       = let '(a, b) := split_chars n rest in (encode_symbol x +:+ a, b).
Proof.
  intros Hx Hr. destruct x as [c| |].
  - cbn [is_ascii] in Hx. apply ascii_no_continuation in Hx.
    unfold encode_symbol, chr. rewrite append_cons, append_empty_l.
    cbn [continues len split_chars]. rewrite Hr.
    split; [exact Hx | split; [reflexivity|]].
    intros n. destruct (split_chars n rest) as [a b].
    now rewrite append_cons, append_empty_l.
  - unfold encode_symbol. rewrite !append_cons, append_empty_l.
    cbn [len continues]. rewrite Hr.
    split; [reflexivity | split; [reflexivity|]].
    intros n. cbn [split_chars continues].
    change (continuation "151") with true. cbv iota. rewrite Hr.
    destruct (split_chars n rest) as [a b].
    now rewrite !append_cons, append_empty_l.
  - unfold encode_symbol. rewrite !append_cons, append_empty_l.
    cbn [len continues]. rewrite Hr.
    split; [reflexivity | split; [reflexivity|]].
    intros n. cbn [split_chars continues].
    change (continuation "183") with true. cbv iota. rewrite Hr.
    destruct (split_chars n rest) as [a b].
    now rewrite !append_cons, append_empty_l.
Qed.

Lemma encode_text_cons (x : symbol) (text : list symbol) :
  encode_text (x :: text) = encode_symbol x +:+ encode_text text.
Proof. unfold encode_text. cbn [map]. apply join_cons. Qed.

Lemma text_first (text : list symbol) (rest : string) :
  forallb is_ascii text = true -> continues rest = false ->
  continues (encode_text text +:+ rest) = false
  /\ len (encode_text text +:+ rest) = (List.length text + len rest)%nat
  /\ forall n : nat,
       split_chars (List.length text + n) (encode_text text +:+ rest)
       = let '(a, b) := split_chars n rest in (encode_text text +:+ a, b).
Proof.
  intros Ht Hr. induction text as [|x text IH].
  - change (encode_text []) with EmptyString. rewrite append_empty_l.
    split; [exact Hr | split; [reflexivity|]]. intros n. cbn [List.length Nat.add].
    destruct (split_chars n rest) as [a b]. now rewrite append_empty_l.
  - cbn [forallb] in Ht. apply andb_true_iff in Ht as [Hx Ht].
    destruct (IH Ht) as (IH1 & IH2 & IH3).
    rewrite encode_text_cons, append_assoc.
    destruct (symbol_first x (encode_text text +:+ rest) Hx IH1) as (S1 & S2 & S3).
    split; [exact S1 | split; [rewrite S2, IH2; reflexivity |]].
    intros n. cbn [List.length Nat.add]. rewrite S3, IH3.
    destruct (split_chars n rest) as [a b]. now rewrite append_assoc.
Qed.

(** X6: backspace takes the last character.  On a text of ASCII
    characters and the two glyphs, which are two bytes each, the label
    of the backspace key leaves the text without its last character,
    whichever of them it is and wherever the cursor stands; on the empty
    text it leaves the empty text.  In both cases the text it found is put
    on the undo stack. *)
Theorem X6_backspace_takes_last_character
        (host : Host) (display : Display) (text : list symbol) (x : symbol) (w : Window) :
  forallb is_ascii (text ++ [x]) = true ->
  entry (fields w) = encode_text (text ++ [x]) ->
  entry (fields (_press "⌫" w)) = encode_text text
  /\ undo_stack (fields (_press "⌫" w))
     = undo_stack (fields w) ++ [encode_text (text ++ [x])]
  /\ entry (fields (_press "⌫" (on_fields (set_entry EmptyString) w))) = EmptyString
  /\ undo_stack (fields (_press "⌫" (on_fields (set_entry EmptyString) w)))
     = undo_stack (fields w) ++ [EmptyString].
Proof.
  intros Hv He. split; [| split; [| split; reflexivity]].
  2: { rewrite press_undo_stack, He. reflexivity. }
  rewrite forallb_app in Hv. apply andb_true_iff in Hv as [Ht Hx].
  cbn [forallb] in Hx. rewrite andb_true_r in Hx.
  assert (Es : entry (fields w) = encode_text text +:+ (encode_symbol x +:+ EmptyString)).
  { rewrite He. unfold encode_text. rewrite map_app, join_app. cbn [map].
    now rewrite join_cons. }
  destruct (symbol_first x EmptyString Hx eq_refl) as (X1 & X2 & X3).
  destruct (text_first text _ Ht X1) as (T1 & T2 & T3).
  rewrite press_backspace.
  destruct (String.eqb_spec (entry (fields w)) EmptyString) as [E0|_].
  { rewrite E0 in Es. apply (f_equal len) in Es. rewrite T2, X2 in Es.
    cbn in Es. lia. }
  unfold entry_delete, entry_end.
  change (entry (fields (_snapshot w))) with (entry (fields w)).
  rewrite Nat.min_id, Es, T2, X2. cbn [len].
  replace (List.length text + 1 - 1)%nat with (List.length text + 0)%nat by lia.
  destruct (Nat.ltb_spec (List.length text + 0) (List.length text + 1)) as [_|]; [|lia].
  rewrite T3, split_chars_0.
  replace (List.length text + 1 - (List.length text + 0))%nat with 1%nat by lia.
  rewrite split_chars_all by (rewrite X2; cbn; lia).
  cbn. now rewrite !append_empty_r.
Qed.

Lemma X6_backspace_takes_last_character_witness :
  forallb is_ascii ([Char "2"; Times] ++ [Divide]) = true
  /\ forall (host : Host) (display : Display),
       entry (fields (on_fields (set_entry "2×÷") CalcApp_init))
       = encode_text ([Char "2"; Times] ++ [Divide])
       /\ entry (fields (_press "⌫" (on_fields (set_entry "2×÷") CalcApp_init)))
          = "2×".
Proof.
  split; [reflexivity|]. intros h d. split; [reflexivity|].
  exact (proj1 (X6_backspace_takes_last_character h d [Char "2"; Times] Divide
                  (on_fields (set_entry "2×÷") CalcApp_init) eq_refl eq_refl)).
Defined.

(** ** Evaluation from the keys *)

(** X7: an evaluation that fails changes nothing.  When the text of the
    entry makes [_evaluate_silent] raise, the labels ["="], ["M+"] and
    ["M-"] show the error, under the title "Error" for the first and
    "Memory Error" for the two others, and leave every field and both
    labels of the window as they were: the text stays in the entry, and
    the last result, the memory and the history keep their values.  No
    exception leaves [_press]. *)
Theorem X7_failed_evaluation_changes_nothing
        (host : Host) (display : Display) (w : Window) (e : exn) :
  fst (_evaluate_silent (fields w)) = Raise e ->
  _press "=" w = showerror "Error" e w
  /\ _press "M+" w = showerror "Memory Error" e w
  /\ _press "M-" w = showerror "Memory Error" e w
  /\ (forall title : string,
        fields (showerror title e w) = fields w
        /\ ans_lbl (showerror title e w) = ans_lbl w
        /\ info (showerror title e w) = info w
        /\ shown (showerror title e w) = shown w ++ [(title, e)]).
Proof.
  intros He. split; [| split; [| split]].
  - rewrite press_equals. apply do_equals_raise; [| exact He].
    intros Hs. unfold _evaluate_silent, mbind_method, get in He.
    rewrite Hs in He. discriminate.
  - now rewrite press_M_plus, He.
  - now rewrite press_M_minus, He.
  - intros title. repeat split.
Qed.

Lemma X7_failed_evaluation_changes_nothing_witness :
  (forall host : Host,
     fst (_evaluate_silent (fields (on_fields (set_entry "1/0") CalcApp_init)))
     = Raise ZeroDivisionError)
  /\ forall (host : Host) (display : Display),
       _press "=" (on_fields (set_entry "1/0") CalcApp_init)
       = showerror "Error" ZeroDivisionError (on_fields (set_entry "1/0") CalcApp_init).
Proof.
  split; [intros h; vm_compute; reflexivity|]. intros h d.
  refine (proj1 (X7_failed_evaluation_changes_nothing h d
                   (on_fields (set_entry "1/0") CalcApp_init) ZeroDivisionError _)).
  vm_compute. reflexivity.
Defined.

Lemma eval_Ans {host : Host} (val : float) (degrees : bool) :
  eval (SafeEvaluator_init (Some {[ "Ans" := VFloat val ]}) degrees) "Ans"
  = Ok (VFloat val).
Proof. vm_compute. reflexivity. Qed.

Lemma evaluate_Ans {host : Host} (a : CalcApp) :
  fst (_evaluate_silent (set_entry "Ans" a)) = Ok (ans a).
Proof.
  unfold _evaluate_silent, mbind_method, get, lift, ret, raise.
  change (strip (entry (set_entry "Ans" a))) with "Ans".
  change (String.eqb "Ans" EmptyString) with false. cbv iota beta.
  change (ans (set_entry "Ans" a)) with (ans a).
  change (deg_mode (set_entry "Ans" a)) with (deg_mode a).
  rewrite eval_Ans. reflexivity.
Qed.

Lemma do_equals_hist {host : Host} {display : Display} (w : Window) (val : float) :
  strip (entry (fields w)) <> EmptyString ->
  fst (_evaluate_silent (fields w)) = Ok val ->
  let h := (strip (entry (fields w)) +:+ " = " +:+ _fmt val) :: hist (fields w) in
  hist (fields (_do_equals w))
  = if Nat.ltb 200 (List.length h) then removelast h else h.
Proof.
  intros Hs He. rewrite (do_equals_ok w val Hs He). cbv zeta.
  now rewrite entry_replace, append_history_fields.
Qed.

Lemma do_equals_hist_hd {host : Host} {display : Display} (w : Window) (val : float) :
  strip (entry (fields w)) <> EmptyString ->
  fst (_evaluate_silent (fields w)) = Ok val ->
  nth 0 (hist (fields (_do_equals w))) EmptyString
  = strip (entry (fields w)) +:+ " = " +:+ _fmt val.
Proof.
  intros Hs He. rewrite (do_equals_hist w val Hs He). cbv zeta.
  destruct (Nat.ltb_spec 200
              (List.length ((strip (entry (fields w)) +:+ " = " +:+ _fmt val)
                              :: hist (fields w)))) as [Hl|Hl]; [|reflexivity].
  destruct (hist (fields w)) as [|y l]; [cbn in Hl; lia | reflexivity].
Qed.

(** X8: the result of ["="].  When the text of the entry is not blank
    and [_evaluate_silent] returns a value, the label ["="] makes the
    value the last result, writes it under [_fmt] into the entry and on
    the label of the last result, and puts the line of the stripped text,
    [" = "] and the formatted value first in the history.  The memory and
    both stacks stay, so the text that was evaluated is on no stack.  And
    the value is what [Ans] then evaluates to, in full and not as
    formatted. *)
Theorem X8_equals_keeps_the_result
        (host : Host) (display : Display) (w : Window) (val : float) :
  strip (entry (fields w)) <> EmptyString ->
  fst (_evaluate_silent (fields w)) = Ok val ->
  ans (fields (_press "=" w)) = val
  /\ entry (fields (_press "=" w)) = _fmt val
  /\ ans_lbl (_press "=" w) = "Ans = " +:+ _fmt val
  /\ hd EmptyString (hist (fields (_press "=" w)))
     = strip (entry (fields w)) +:+ " = " +:+ _fmt val
  /\ memory (fields (_press "=" w)) = memory (fields w)
  /\ undo_stack (fields (_press "=" w)) = undo_stack (fields w)
  /\ redo_stack (fields (_press "=" w)) = redo_stack (fields w)
  /\ shown (_press "=" w) = shown w
  /\ fst (_evaluate_silent (set_entry "Ans" (fields (_press "=" w)))) = Ok val.
Proof.
  intros Hs He. rewrite press_equals.
  assert (Ha : ans (fields (_do_equals w)) = val).
  { rewrite (do_equals_ok w val Hs He). cbv zeta.
    now rewrite entry_replace, append_history_fields. }
  destruct (do_equals_frame w) as (_ & Hm & Hr & Hu).
  repeat split; try assumption.
  - rewrite (do_equals_ok w val Hs He). cbv zeta. now rewrite entry_replace.
  - rewrite (do_equals_ok w val Hs He). cbv zeta.
    destruct (entry_replace_rest (_fmt val)
                (_append_history (strip (entry (fields w))) val
                   (ans_lbl_config ("Ans = " +:+ _fmt val) (on_fields (set_ans val) w))))
      as (-> & _ & _).
    now rewrite append_history_fields.
  - rewrite <- (do_equals_hist_hd w val Hs He).
    now destruct (hist (fields (_do_equals w))).
  - rewrite (do_equals_ok w val Hs He). cbv zeta.
    destruct (entry_replace_rest (_fmt val)
                (_append_history (strip (entry (fields w))) val
                   (ans_lbl_config ("Ans = " +:+ _fmt val) (on_fields (set_ans val) w))))
      as (_ & _ & ->).
    now rewrite append_history_fields.
  - rewrite evaluate_Ans. now rewrite Ha.
Qed.

Lemma X8_equals_keeps_the_result_witness :
  strip (entry (fields (on_fields (set_entry " 1+2 ") CalcApp_init))) <> EmptyString
  /\ (forall host : Host,
        fst (_evaluate_silent (fields (on_fields (set_entry " 1+2 ") CalcApp_init)))
        = Ok 3%float)
  /\ forall (host : Host) (display : Display),
       ans (fields (_press "=" (on_fields (set_entry " 1+2 ") CalcApp_init))) = 3%float.
Proof.
  split; [vm_compute; discriminate|]. split; [intros h; vm_compute; reflexivity|].
  intros h d.
  refine (proj1 (X8_equals_keeps_the_result h d
                   (on_fields (set_entry " 1+2 ") CalcApp_init) 3%float _ _)).
  - vm_compute. discriminate.
  - vm_compute. reflexivity.
Defined.

(** ** The history *)

Lemma take_200 {A} (x : A) (h : list A) :
  (List.length h <= 200)%nat ->
  (if Nat.ltb 200 (List.length (x :: h)) then removelast (x :: h) else x :: h)
  = take 200 (x :: h).
Proof.
  intros H. destruct (Nat.ltb_spec 200 (List.length (x :: h))) as [Hl|Hl].
  - rewrite removelast_firstn_len. f_equal. cbn [List.length] in *. lia.
  - symmetry. apply firstn_all2. exact Hl.
Qed.

Lemma press_hist {host : Host} {display : Display} (label : string) (w : Window) :
  hist (fields (_press label w)) = hist (fields w) \/ label = "=".
Proof.
  press_cases label w H.
  all: try match goal with |- context [if String.eqb ?a ?b then _ else _] =>
             destruct (String.eqb a b) end.
  all: try match goal with |- context [fst (_evaluate_silent ?a)] =>
             destruct (fst (_evaluate_silent a)) end.
  all: try (right; reflexivity).
  all: left.
  all: cbn [on_fields info_config showerror].
  all: try change (fields (on_fields ?f ?x)) with (f (fields x)).
  all: frames; reflexivity.
Qed.

Lemma run_hist {host : Host} {display : Display} (c : callback) (w : Window) :
  hist (fields (run c w)) = hist (fields w) \/ run c w = _do_equals w.
Proof.
  destruct c as [label|char|char| | | |sel]; cbn [run].
  - destruct (press_hist label w) as [H | ->]; [now left | now right].
  - left. destruct (insert_key_fields char w) as [t ->]. reflexivity.
  - left. unfold _on_any_key. now destruct (_ && _).
  - now left.
  - left. now destruct (undo_cases w) as [[_ ->] | (u & p & _ & ->)].
  - left. now destruct (redo_cases w) as [[_ ->] | (r & n & _ & ->)].
  - left. unfold _on_history_double. destruct sel as [|row sel]; [reflexivity|].
    destruct (split_once _ _) as [[a b]|]; [| reflexivity].
    now rewrite entry_replace.
Qed.

(** X9: the history holds 200 lines at most.  No callback of the window
    takes a history of 200 lines or fewer to a longer one: every callback
    but the evaluation of ["="] leaves the history as it is, and
    [_append_history] puts the new line first, keeps the lines it found
    in their order after it, and lets go of the oldest when there would be
    201. *)
Theorem X9_history_is_bounded
        (host : Host) (display : Display) (c : callback) (w : Window) :
  (List.length (hist (fields w)) <= 200)%nat ->
  (List.length (hist (fields (run c w))) <= 200)%nat
  /\ (forall (expr : string) (val : float),
        hist (fields (_append_history expr val w))
        = take 200 ((expr +:+ " = " +:+ _fmt val) :: hist (fields w))).
Proof.
  intros H. split.
  - destruct (run_hist c w) as [-> | ->]; [exact H|].
    destruct (string_dec (strip (entry (fields w))) EmptyString) as [Hs|Hs].
    + now rewrite do_equals_blank.
    + destruct (fst (_evaluate_silent (fields w))) as [val|e] eqn:He.
      * rewrite (do_equals_hist w val Hs He). cbv zeta. rewrite take_200 by exact H.
        rewrite length_take. lia.
      * now rewrite (do_equals_raise w e Hs He).
  - intros expr val. rewrite append_history_fields. cbv zeta.
    cbn [fields on_fields hist set_hist]. now apply take_200.
Qed.

Lemma X9_history_is_bounded_witness :
  (List.length (hist (fields (on_fields (set_entry "1+2") CalcApp_init))) <= 200)%nat
  /\ forall (host : Host) (display : Display),
       (List.length
          (hist (fields (run (Press "=") (on_fields (set_entry "1+2") CalcApp_init))))
        <= 200)%nat.
Proof.
  split; [cbn; lia|]. intros h d.
  refine (proj1 (X9_history_is_bounded h d (Press "=")
                   (on_fields (set_entry "1+2") CalcApp_init) _)).
  cbn. lia.
Defined.

Lemma startswith_sep (c : ascii) (s : string) :
  no_equals c = true ->
  (match s with String d _ => no_equals d | EmptyString => true end = true
   \/ exists r, s = " = " +:+ r) ->
  startswith " = " (String c s) = false.
Proof.
  intros Hc Hs. cbn [startswith]. destruct (Ascii.eqb " " c); [|reflexivity].
  cbn [andb]. destruct Hs as [Hs | [r ->]].
  - destruct s as [|d s]; [reflexivity|]. cbn [startswith].
    unfold no_equals in Hs. apply negb_true_iff in Hs.
    rewrite Ascii.eqb_sym in Hs. now rewrite Hs.
  - reflexivity.
Qed.

(** [split(" = ", 1)] on a text whose first [" = "] is known. *)
Lemma split_once_first (a rest : string) :
  forallb no_equals (list_ascii_of_string a) = true ->
  split_once " = " (a +:+ " = " +:+ rest) = Some (a, rest).
Proof.
  induction a as [|c a IH]; intros H.
  - reflexivity.
  - cbn [list_ascii_of_string forallb] in H. apply andb_true_iff in H as [Hc Ha].
    rewrite append_cons. cbn [split_once].
    rewrite startswith_sep, (IH Ha); [reflexivity | exact Hc |].
    destruct a as [|d a]; [right; now exists rest | left].
    cbn [list_ascii_of_string forallb] in Ha. apply andb_true_iff in Ha as [Hd _].
    exact Hd.
Qed.

Lemma split_once_none (a : string) :
  forallb no_equals (list_ascii_of_string a) = true -> split_once " = " a = None.
Proof.
  induction a as [|c a IH]; intros H; [reflexivity|].
  cbn [list_ascii_of_string forallb] in H. apply andb_true_iff in H as [Hc Ha].
  cbn [split_once]. rewrite startswith_sep, (IH Ha); [reflexivity | exact Hc |].
  left. destruct a as [|d a]; [reflexivity|].
  cbn [list_ascii_of_string forallb] in Ha. now apply andb_true_iff in Ha as [Hd _].
Qed.

Lemma history_double_spec (row : nat) (a rest : string) (w : Window) :
  forallb no_equals (list_ascii_of_string a) = true ->
  nth row (hist (fields w)) EmptyString = a +:+ " = " +:+ rest ->
  fields (_on_history_double [row] w) = set_entry (strip rest) (fields w).
Proof.
  intros Ha Hn. unfold _on_history_double.
  now rewrite Hn, (split_once_first a rest Ha), entry_replace.
Qed.

(** X10: a double click on a line of the history puts into the entry what
    follows the first [" = "] of the line, stripped, and changes no other
    field: the undo stack does not get the text that the entry loses.
    The line of an expression that has no equals sign gives back its
    result.  The line of an expression that has [" = "] of its own, as a
    call with [b = 2] has, gives back the end of the expression with the
    result after it.  A line with no equals sign, and an empty selection,
    change nothing. *)
Theorem X10_history_recall (row : nat) (a rest : string) (w : Window) :
  forallb no_equals (list_ascii_of_string a) = true ->
  nth row (hist (fields w)) EmptyString = a +:+ " = " +:+ rest ->
  fields (_on_history_double [row] w) = set_entry (strip rest) (fields w)
  /\ _on_history_double [] w = w
  /\ _on_history_double [0%nat] (on_fields (set_hist [a]) w)
     = on_fields (set_hist [a]) w.
Proof.
  intros Ha Hn.
  split; [now apply (history_double_spec row a rest) | split; [reflexivity|]].
  unfold _on_history_double.
  change (nth 0 (hist (fields (on_fields (set_hist [a]) w))) EmptyString) with a.
  now rewrite (split_once_none a Ha).
Qed.

Lemma X10_history_recall_witness :
  let w := on_fields (set_hist ["1+2 = 3"; "log(8, b = 2) = 3"]) CalcApp_init in
  forallb no_equals (list_ascii_of_string "log(8, b") = true
  /\ nth 1 (hist (fields w)) EmptyString = "log(8, b" +:+ " = " +:+ "2) = 3"
  /\ entry (fields (_on_history_double [1%nat] w)) = "2) = 3"
  /\ entry (fields (_on_history_double [0%nat] w)) = "3".
Proof.
  cbv zeta. split; [reflexivity|]. split; [reflexivity|]. split; [|reflexivity].
  rewrite (proj1 (X10_history_recall 1 "log(8, b" "2) = 3"
                    (on_fields (set_hist ["1+2 = 3"; "log(8, b = 2) = 3"]) CalcApp_init)
                    eq_refl eq_refl)).
  reflexivity.
Defined.

(** X11: the result comes back from the history.  After ["="] has
    evaluated a text that has no equals sign, a double click on the first
    line of the history puts the formatted result, stripped, into the
    entry: what ["="] itself has put there. *)
Theorem X11_result_comes_back
        (host : Host) (display : Display) (w : Window) (val : float) :
  strip (entry (fields w)) <> EmptyString ->
  fst (_evaluate_silent (fields w)) = Ok val ->
  forallb no_equals (list_ascii_of_string (strip (entry (fields w)))) = true ->
  entry (fields (_on_history_double [0%nat] (_press "=" w))) = strip (_fmt val)
  /\ entry (fields (_press "=" w)) = _fmt val.
Proof.
  intros Hs He Hn. rewrite press_equals. split.
  - now rewrite (history_double_spec 0 (strip (entry (fields w))) (_fmt val))
      by (try exact Hn; now apply do_equals_hist_hd).
  - rewrite (do_equals_ok w val Hs He). cbv zeta. now rewrite entry_replace.
Qed.

Lemma X11_result_comes_back_witness :
  strip (entry (fields (on_fields (set_entry "1+2") CalcApp_init))) <> EmptyString
  /\ forallb no_equals
       (list_ascii_of_string
          (strip (entry (fields (on_fields (set_entry "1+2") CalcApp_init))))) = true
  /\ forall (host : Host) (display : Display),
       fst (_evaluate_silent (fields (on_fields (set_entry "1+2") CalcApp_init)))
       = Ok 3%float
       /\ entry (fields (_on_history_double [0%nat]
                           (_press "=" (on_fields (set_entry "1+2") CalcApp_init))))
          = strip (_fmt 3).
Proof.
  split; [vm_compute; discriminate|]. split; [reflexivity|]. intros h d.
  split; [vm_compute; reflexivity|].
  refine (proj1 (X11_result_comes_back h d
                   (on_fields (set_entry "1+2") CalcApp_init) 3%float _ _ _)).
  - vm_compute. discriminate.
  - vm_compute. reflexivity.
  - reflexivity.
Defined.

(** ** The tables of the evaluator *)

Lemma bin_ops_listed {host : Host} (op : ast.operator) :
  is_binary_operator op = false -> bin_ops op = None.
Proof. now destruct op. Qed.

Lemma unary_ops_listed (op : ast.unaryop) :
  is_unary_operator op = false -> unary_ops op = None.
Proof. now destruct op. Qed.

Lemma is_listed_false (names : list string) (id : string) :
  is_listed names id = false <-> id ∉ names.
Proof.
  unfold is_listed. rewrite list_elem_of_In. split.
  - intros H Hin. assert (E : existsb (String.eqb id) names = true).
    { apply existsb_exists. exists id. split; [exact Hin | apply String.eqb_refl]. }
    congruence.
  - intros H. destruct (existsb _ _) eqn:E; [|reflexivity].
    apply existsb_exists in E as (k & Hk & E). apply String.eqb_eq in E. now subst.
Qed.

Lemma funcs_names {host : Host} (degrees : bool) (name : string) :
  funcs degrees !! name = None <-> is_listed function_names name = false.
Proof.
  rewrite is_listed_false. unfold funcs. rewrite <- not_elem_of_list_to_map.
  reflexivity.
Qed.

Lemma consts_names (id : string) :
  is_listed constant_names id = false -> consts !! id = None.
Proof.
  intros H. apply is_listed_false in H. unfold consts.
  now apply not_elem_of_list_to_map.
Qed.

Lemma visit_unlisted {host : Host} (vars : gmap string value) (degrees : bool) :
  forall n : ast.node,
    unlisted vars n = true -> exists e : exn, visit vars degrees n = Raise e.
Proof.
  fix IH 1.
  intros [body|c|l op r|op e|f args kws|id| | | | | | | | | ] H;
    cbn [visit unlisted] in *; try discriminate.
  - now apply IH.
  - destruct (is_binary_operator op) eqn:Hop;
      [| rewrite (bin_ops_listed op Hop); eexists; reflexivity].
    destruct (bin_ops op); [| eexists; reflexivity].
    cbn [negb orb] in H. apply orb_true_iff in H as [H|H].
    + destruct (IH l H) as [e ->]. eexists; reflexivity.
    + destruct (visit vars degrees l); [| eexists; reflexivity].
      destruct (IH r H) as [e ->]. eexists; reflexivity.
  - destruct (is_unary_operator op) eqn:Hop;
      [| rewrite (unary_ops_listed op Hop); eexists; reflexivity].
    destruct (unary_ops op); [| eexists; reflexivity].
    cbn [negb orb] in H. destruct (IH e H) as [e' ->]. eexists; reflexivity.
  - destruct f; try (eexists; reflexivity).
    destruct (funcs degrees !! id) eqn:Hf; [| eexists; reflexivity].
    destruct (is_listed function_names id) eqn:Hid;
      [| apply (proj2 (funcs_names degrees id)) in Hid; congruence].
    cbn [negb orb] in H.
    match goal with
    | |- context [bind (?va args) _] =>
        assert (Hargs : existsb (unlisted vars) args = true -> exists e, va args = Raise e)
    end.
    { clear H. induction args as [|a args IHa]; cbn [existsb]; [discriminate|].
      intros H. apply orb_true_iff in H as [H|H].
      - destruct (IH a H) as [e ->]. eexists; reflexivity.
      - destruct (visit vars degrees a); [| eexists; reflexivity].
        destruct (IHa H) as [e ->]. eexists; reflexivity. }
    match goal with
    | |- context [bind (?vk kws) _] =>
        assert (Hkws : existsb (fun kw => unlisted vars (snd kw)) kws = true ->
                       exists e, vk kws = Raise e)
    end.
    { clear H Hargs. induction kws as [|[k a] kws IHk]; cbn [existsb snd]; [discriminate|].
      intros H. apply orb_true_iff in H as [H|H].
      - destruct (IH a H) as [e ->]. eexists; reflexivity.
      - destruct (visit vars degrees a); [| eexists; reflexivity].
        destruct (IHk H) as [e ->]. eexists; reflexivity. }
    apply orb_true_iff in H as [H|H].
    + destruct (Hargs H) as [e ->]. eexists; reflexivity.
    + match goal with
      | |- context [bind (?va args) _] => destruct (va args); [| eexists; reflexivity]
      end.
      destruct (Hkws H) as [e ->]. eexists; reflexivity.
  - apply negb_true_iff, orb_false_iff in H as [Hc Hv].
    rewrite (consts_names id Hc). unfold is_key in Hv.
    destruct (vars !! id); [discriminate | eexists; reflexivity].
Qed.

(** X12: the tables are closed under nesting.  A tree that uses,
    anywhere in it, a binary operator other than the seven of [bin_ops],
    a unary operator other than the two of [unary_ops], a function that
    is not one of the fourteen names, a callee that is no plain name, or
    an identifier that is neither [pi], [e] nor a variable, has no value:
    [visit] raises, whatever stands around that use and in either angle
    mode.  At the root the bitwise operators and the call of a method give
    the messages of lines 123, 130 and 135. *)
Theorem X12_tables_are_closed
        (host : Host) (vars : gmap string value) (degrees : bool) (n : ast.node) :
  unlisted vars n = true ->
  (exists e : exn, visit vars degrees n = Raise e)
  /\ (forall l r : ast.node,
        visit vars degrees (ast.BinOp l ast.BitXor r)
        = Raise (ValueError "Unsupported operator."))
  /\ (forall operand : ast.node,
        visit vars degrees (ast.UnaryOp ast.Invert operand)
        = Raise (ValueError "Unsupported unary operator."))
  /\ (forall (v : ast.node) (attr : string) (args : list ast.node),
        visit vars degrees (ast.Call (ast.Attribute v attr) args [])
        = Raise (ValueError "Only simple function calls allowed.")).
Proof.
  intros H. split; [now apply visit_unlisted | repeat split].
Qed.

Lemma X12_tables_are_closed_witness :
  unlisted ∅ (ast.BinOp (ast.Constant (ast.CInt 1)) ast.Add
                (ast.Call (ast.Name "sin")
                   [ast.BinOp (ast.Constant (ast.CInt 2)) ast.LShift
                      (ast.Constant (ast.CInt 3))] [])) = true
  /\ forall (host : Host) (degrees : bool),
       exists e : exn,
         visit ∅ degrees
           (ast.BinOp (ast.Constant (ast.CInt 1)) ast.Add
              (ast.Call (ast.Name "sin")
                 [ast.BinOp (ast.Constant (ast.CInt 2)) ast.LShift
                    (ast.Constant (ast.CInt 3))] [])) = Raise e.
Proof.
  split; [reflexivity|]. intros h degrees.
  exact (proj1 (X12_tables_are_closed h ∅ degrees
                  (ast.BinOp (ast.Constant (ast.CInt 1)) ast.Add
                     (ast.Call (ast.Name "sin")
                        [ast.BinOp (ast.Constant (ast.CInt 2)) ast.LShift
                           (ast.Constant (ast.CInt 3))] []))
                  eq_refl)).
Defined.

(** X13: the functions are the same fourteen names in both angle modes,
    and a call of any other name is reported by that name before any of
    its arguments is evaluated: whatever the arguments are, and whether
    they are given by position or by name. *)
Theorem X13_unknown_function
        (host : Host) (vars : gmap string value) (degrees : bool) (name : string)
        (args : list ast.node) (keywords : list (option string * ast.node)) :
  is_listed function_names name = false ->
  funcs true !! name = None
  /\ funcs false !! name = None
  /\ visit vars degrees (ast.Call (ast.Name name) args keywords)
     = Raise (ValueError ("Unknown function: " +:+ name))
  /\ forallb (fun known => is_Some_b (funcs degrees !! known)) function_names = true.
Proof.
  intros H. pose proof (proj2 (funcs_names true name) H) as Ht.
  pose proof (proj2 (funcs_names false name) H) as Hf.
  split; [exact Ht | split; [exact Hf | split]].
  - cbn [visit]. destruct degrees; [rewrite Ht | rewrite Hf]; reflexivity.
  - now destruct degrees.
Qed.

Lemma X13_unknown_function_witness :
  is_listed function_names "exp" = false
  /\ forall (host : Host) (degrees : bool),
       visit ∅ degrees (ast.Call (ast.Name "exp") [ast.Name "nowhere"] [])
       = Raise (ValueError "Unknown function: exp").
Proof.
  split; [reflexivity|]. intros h degrees.
  exact (proj1 (proj2 (proj2 (X13_unknown_function h ∅ degrees "exp"
                                [ast.Name "nowhere"] [] eq_refl)))).
Defined.

(** ** The preprocessor *)

Section Characters.

(** A set of characters that holds those the conversion of the
    factorial writes of its own. *)
Variable p : ascii -> bool.
Hypothesis p_fact : forallb p (list_ascii_of_string "fact(") = true.
Hypothesis p_rparen : p rparen = true.
Hypothesis p_bang : p bang = true.





End Characters.



Lemma forallb_weaken {A} (f g : A -> bool) (l : list A) :
  (forall x, f x = true -> g x = true) -> forallb f l = true -> forallb g l = true.
Proof.
  intros H Hf. apply forallb_forall. intros x Hx.
  apply H. exact (proj1 (forallb_forall _ _) Hf x Hx).
Qed.



Lemma plain_ascii_spec (c : ascii) :
  plain_ascii c = true ->
  (N_of_ascii c <? 128)%N = true
  /\ Ascii.eqb c "^" = false /\ Ascii.eqb c "%" = false /\ Ascii.eqb c bang = false.
Proof.
  unfold plain_ascii, is_sign. intros H. apply andb_true_iff in H as [Ha H].
  apply negb_true_iff in H. apply orb_false_iff in H as [H Hb].
  apply orb_false_iff in H as [Hc Hp]. now repeat split.
Qed.

Lemma substitute_plain (s : string) :
  forallb plain_ascii (list_ascii_of_string s) = true -> substitute s = s.
Proof.
  induction s as [|c s IH]; intros H; [reflexivity|].
  cbn [list_ascii_of_string forallb] in H. apply andb_true_iff in H as [Hc Hs].
  destruct (plain_ascii_spec c Hc) as (Ha & Hcaret & Hpercent & _).
  rewrite (substitute_cons_ascii c s Ha), (IH Hs). cbn [substitute_symbol].
  now rewrite Hcaret, Hpercent.
Qed.

(** One turn of the loop on a text that has no factorial sign: the
    characters it takes go to the output as they are. *)
Lemma rf_step_no_bang (out : list string) (c : ascii) (rest : list ascii) :
  forallb no_bang (c :: rest) = true ->
  exists (run rest' : list ascii),
    rf_step out c rest = (out ++ map chr run, rest')
    /\ c :: rest = run ++ rest' /\ run <> [].
Proof.
  intros H. pose proof H as H0. cbn [forallb] in H0.
  apply andb_true_iff in H0 as [Hc Hrest]. unfold no_bang in Hc.
  apply negb_true_iff in Hc. unfold rf_step. rewrite Hc.
  assert (Hplain : exists run rest',
            (out ++ [chr c], rest) = (out ++ map chr run, rest')
            /\ c :: rest = run ++ rest' /\ run <> []).
  { exists [c], rest. now repeat split. }
  assert (Hdigits : exists run rest',
            (let '(run, rest') := digit_run (c :: rest) in
             let out1 := out ++ map chr run in
             match rest' with
             | k :: rest'' =>
                 if Ascii.eqb k bang
                 then (pops (List.length run) out1
                         ++ ["fact(" +:+ string_of_list_ascii run +:+ ")"], rest'')
                 else (out1, rest')
             | [] => (out1, rest')
             end) = (out ++ map chr run, rest')
            /\ c :: rest = run ++ rest' /\ (isdigit c = true -> run <> [])).
  { destruct (digit_run (c :: rest)) as [run rest1] eqn:Hrun.
    assert (Hne : isdigit c = true -> run <> []).
    { intros Hd. cbn [digit_run] in Hrun. unfold digit_or_dot in Hrun.
      rewrite Hd in Hrun. cbn [orb] in Hrun.
      destruct (digit_run rest). inversion Hrun. discriminate. }
    apply digit_run_spec in Hrun as [Hsplit _].
    exists run, rest1. split; [| now split].
    destruct rest1 as [|k rest2]; [reflexivity|].
    rewrite Hsplit, forallb_app in H. apply andb_true_iff in H as [_ H].
    cbn [forallb] in H. apply andb_true_iff in H as [Hk _].
    unfold no_bang in Hk. apply negb_true_iff in Hk. now rewrite Hk. }
  assert (Hd : isdigit c = true -> exists run rest',
            (let '(run, rest') := digit_run (c :: rest) in
             let out1 := out ++ map chr run in
             match rest' with
             | k :: rest'' =>
                 if Ascii.eqb k bang
                 then (pops (List.length run) out1
                         ++ ["fact(" +:+ string_of_list_ascii run +:+ ")"], rest'')
                 else (out1, rest')
             | [] => (out1, rest')
             end) = (out ++ map chr run, rest')
            /\ c :: rest = run ++ rest' /\ run <> []).
  { intros Hdig. destruct Hdigits as (run & rest' & E & Hsplit & Hne).
    exists run, rest'. repeat split; [exact E | exact Hsplit | now apply Hne]. }
  destruct (Ascii.eqb c rparen).
  - destruct rest as [|k rest'].
    + destruct (isdigit c) eqn:Hdig; [now apply Hd | exact Hplain].
    + cbn [forallb] in Hrest. apply andb_true_iff in Hrest as [Hk _].
      unfold no_bang in Hk. apply negb_true_iff in Hk. rewrite Hk.
      destruct (isdigit c) eqn:Hdig; [now apply Hd | exact Hplain].
  - destruct (isdigit c) eqn:Hdig; [now apply Hd | exact Hplain].
Qed.

Lemma rf_loop_no_bang (fuel : nat) :
  forall (out : list string) (s : list ascii),
    (List.length s <= fuel)%nat -> forallb no_bang s = true ->
    join (rf_loop fuel out s) = join out +:+ string_of_list_ascii s.
Proof.
  induction fuel as [|fuel IH]; intros out [|c rest] Hlen H;
    try (cbn [rf_loop string_of_list_ascii]; now rewrite append_empty_r).
  { cbn in Hlen. lia. }
  cbn [rf_loop].
  destruct (rf_step_no_bang out c rest H) as (run & rest' & -> & Hsplit & Hne).
  assert (Hlen' : (List.length rest' <= fuel)%nat).
  { apply (f_equal (@List.length ascii)) in Hsplit. rewrite length_app in Hsplit.
    cbn [List.length] in *. destruct run; [congruence | cbn in Hsplit; lia]. }
  assert (H' : forallb no_bang rest' = true).
  { rewrite Hsplit, forallb_app in H. now apply andb_true_iff in H as [_ H]. }
  rewrite (IH _ _ Hlen' H'), join_app, join_chunks, Hsplit, append_assoc.
  f_equal. clear. induction run as [|d run IH]; [reflexivity|].
  cbn [string_of_list_ascii app]. now rewrite append_cons, IH.
Qed.

Lemma replace_factorial_no_bang (s : string) :
  forallb no_bang (list_ascii_of_string s) = true -> _replace_factorial s = s.
Proof.
  intros H. unfold _replace_factorial.
  rewrite rf_loop_no_bang by (try exact H; rewrite length_chars; lia).
  now rewrite string_of_list_ascii_of_string.
Qed.

(** X15: a text with none of the signs goes to the parser as it is.  On
    a text of ASCII characters that has no caret, no percent sign and no
    factorial sign the preprocessor changes nothing: what it hands to
    [ast.parse] is the text itself, parentheses, digits and points
    included. *)
Theorem X15_plain_text_is_kept (text : string) :
  forallb plain_ascii (list_ascii_of_string text) = true ->
  substitute text = text
  /\ _replace_factorial text = text
  /\ preprocess text = text.
Proof.
  intros H.
  assert (Hb : forallb no_bang (list_ascii_of_string text) = true).
  { revert H. apply forallb_weaken. intros x Hx.
    unfold no_bang. now destruct (plain_ascii_spec x Hx) as (_ & _ & _ & ->). }
  split; [now apply substitute_plain | split; [now apply replace_factorial_no_bang|]].
  unfold preprocess. rewrite (substitute_plain text H).
  now apply replace_factorial_no_bang.
Qed.

Lemma X15_plain_text_is_kept_witness :
  forallb plain_ascii (list_ascii_of_string "sin(2.5)*(3+4)") = true
  /\ preprocess "sin(2.5)*(3+4)" = "sin(2.5)*(3+4)".
Proof.
  split; [reflexivity|].
  exact (proj2 (proj2 (X15_plain_text_is_kept "sin(2.5)*(3+4)" eq_refl))).
Defined.

(** ** White space around the text *)












(** ** Logarithms and powers *)

(** X17: [log] is the logarithm to base 10 unless the call names a
    base, as a second argument or as [b=]; [ln] is [math.log] itself, so
    it takes a base as a second argument too but no argument by name.
    The arguments are evaluated from left to right, those by position
    before those by name, and the first error among them is the error of
    the call. *)
Theorem X17_log_and_ln
        (host : Host) (vars : gmap string value) (degrees : bool) (x b : ast.node) :
  visit vars degrees (ast.Call (ast.Name "log") [x] [])
  = (let* v := visit vars degrees x in math_log v (Some (VInt 10)))
  /\ visit vars degrees (ast.Call (ast.Name "log") [x; b] [])
     = (let* v := visit vars degrees x in
        let* w := visit vars degrees b in math_log v (Some w))
  /\ visit vars degrees (ast.Call (ast.Name "log") [x] [(Some "b", b)])
     = (let* v := visit vars degrees x in
        let* w := visit vars degrees b in math_log v (Some w))
  /\ visit vars degrees (ast.Call (ast.Name "ln") [x] [])
     = (let* v := visit vars degrees x in math_log v None)
  /\ visit vars degrees (ast.Call (ast.Name "ln") [x; b] [])
     = (let* v := visit vars degrees x in
        let* w := visit vars degrees b in math_log v (Some w))
  /\ visit vars degrees (ast.Call (ast.Name "ln") [x] [(Some "b", b)])
     = (let* v := visit vars degrees x in
        let* w := visit vars degrees b in Raise TypeError).
Proof.
  assert (Hlog : funcs degrees !! "log"
                 = Some (Lambda2 "x" "b" (VInt 10)
                           (fun x b => call math_log_fn [x; b] []))) by reflexivity.
  assert (Hln : funcs degrees !! "ln" = Some math_log_fn) by reflexivity.
  repeat split; cbn [visit]; rewrite ?Hlog, ?Hln.
  all: destruct (visit vars degrees x) as [v|]; [| reflexivity].
  all: try (destruct (visit vars degrees b) as [w|]; [| reflexivity]).
  all: reflexivity.
Qed.

(** X18: [pow] of two arguments is the power operator.  A call of [pow]
    on two arguments by position has the value, or the error, of the
    power of the same two trees: the trees are evaluated in the same
    order and the same operation of the host is applied.  With the caret
    of the keys written as [**] by the preprocessor, [2^10] and
    [pow(2, 10)] are both 1024. *)
Theorem X18_pow_is_the_power_operator
        (host : Host) (vars : gmap string value) (degrees : bool) (x y : ast.node) :
  visit vars degrees (ast.Call (ast.Name "pow") [x; y] [])
  = visit vars degrees (ast.BinOp x ast.Pow y)
  /\ (forall last : float,
        evaluate "pow(2, 10)" last degrees = Ok 1024%float
        /\ evaluate "2^10" last degrees = Ok 1024%float).
Proof.
  assert (Hpow : funcs degrees !! "pow" = Some BuiltinPow) by reflexivity.
  split.
  - cbn [visit bin_ops]. rewrite Hpow.
    destruct (visit vars degrees x) as [v|]; [| reflexivity].
    destruct (visit vars degrees y) as [w|]; reflexivity.
  - intros last. split; vm_compute; reflexivity.
Qed.
